(** * Large-page remapping of code regions: a shallow embedding of
    [large_page.c] and [lp_preload.c] and the properties of their
    specification.

    Addresses and sizes are 64-bit machine integers, carried in [Z] with the
    wrap-around written out.  The address space and the operating system are
    the environment of the program: memory is a map from addresses to
    mapped cells, and the outcome of every system call is supplied by a
    record of kernel answers. *)

From Stdlib Require Import ZArith Lia Bool List String Ascii.
From Stdlib Require Import Strings.Byte.
From Stdlib Require Import DecimalString.
Import ListNotations.
Local Open Scope string_scope.
Local Open Scope Z_scope.

(** ** Status codes *)

Module Status.

(** Modelled from the spec: the header [large_page.h], which declares
    [enum map_status], is not among the sources.  The status codes form a
    closed enumeration; each enumerator is given the position of its name
    in the table of [MapStatusStr], which indexes that table by
    [status << 1]. *)
Definition map_status := Z.

Definition map_ok : map_status := 0.
Definition map_failed_to_open_thp_file : map_status := 1.
Definition map_failed_to_stat_exe : map_status := 2.
Definition map_failed_to_open_exe : map_status := 3.
Definition map_failed_to_map_exe_see_errno : map_status := 4.
Definition map_failed_to_find_text_section : map_status := 5.
Definition map_failed_to_unmap_exe_see_errno : map_status := 6.
Definition map_failed_to_close_exe_see_errno : map_status := 7.
Definition map_invalid_regex : map_status := 8.
Definition map_invalid_region_address : map_status := 9.
Definition map_malformed_thp_file : map_status := 10.
Definition map_null_regex : map_status := 11.
Definition map_region_not_found : map_status := 12.
Definition map_region_too_small : map_status := 13.
Definition map_see_errno : map_status := 14.
Definition map_see_errno_madvise_tmem_failed : map_status := 15.
Definition map_see_errno_madvise_tmem_munmap_nmem_failed : map_status := 16.
Definition map_see_errno_madvise_tmem_munmaps_failed : map_status := 17.
Definition map_see_errno_madvise_tmem_munmap_tmem_failed : map_status := 18.
Definition map_see_errno_mmap_tmem_failed : map_status := 19.
Definition map_see_errno_mmap_tmem_munmap_nmem_failed : map_status := 20.
Definition map_see_errno_mprotect_failed : map_status := 21.
Definition map_see_errno_mprotect_munmap_nmem_failed : map_status := 22.
Definition map_see_errno_mprotect_munmaps_failed : map_status := 23.
Definition map_see_errno_mprotect_munmap_tmem_failed : map_status := 24.
Definition map_see_errno_munmap_nmem_failed : map_status := 25.
Definition map_unsupported_platform : map_status := 26.

(** The table of [MapStatusStr]: short name, then full text. *)
Definition map_status_text : list string :=
  [ "map_ok"; "ok";
    "map_failed_to_open_thp_file";
      "failed to open thp enablement status file";
    "map_failed_to_stat_exe"; "failed to stat executable";
    "map_failed_to_open_exe"; "failed to open executable";
    "map_failed_to_map_exe_see_errno"; "failed to map executable";
    "map_failed_to_find_text_section"; "failed to find text section";
    "map_failed_to_unmap_exe_see_errno"; "failed to unmap executable";
    "map_failed_to_close_exe_see_errno"; "failed to close executable";
    "map_invalid_regex"; "invalid regex";
    "map_invalid_region_address"; "invalid region boundaries";
    "map_malformed_thp_file"; "malformed thp enablement status file";
    "map_null_regex"; "regex was NULL";
    "map_region_not_found"; "map region not found";
    "map_region_too_small"; "map region too small";
    "map_see_errno"; "see errno";
    "map_see_errno_madvise_tmem_failed"; "madvise for destination failed";
    "map_see_errno_madvise_tmem_munmap_nmem_failed";
      "madvise for destination and unmapping of temporary failed";
    "map_see_errno_madvise_tmem_munmaps_failed";
      "madvise for destination and unmappings failed";
    "map_see_errno_madvise_tmem_munmap_tmem_failed";
      "madvise for destination and unmapping of destination failed";
    "map_see_errno_mmap_tmem_failed"; "mapping of destination failed";
    "map_see_errno_mmap_tmem_munmap_nmem_failed";
      "mapping of destination and unmapping of temporary failed";
    "map_see_errno_mprotect_failed"; "mprotect failed";
    "map_see_errno_mprotect_munmap_nmem_failed";
      "mprotect and unmapping of temporary failed";
    "map_see_errno_mprotect_munmaps_failed";
      "mprotect and unmappings failed";
    "map_see_errno_mprotect_munmap_tmem_failed";
      "mprotect and unmapping of destination failed";
    "map_see_errno_munmap_nmem_failed"; "unmapping of temporary failed";
    "map_unsupported_platform";
      "mapping to large pages is not supported on this platform" ].

(** [MapStatusStr(status, fulltext)]; an index past the table is an
    out-of-bounds read in C and [None] here. *)
Definition MapStatusStr (status : map_status) (fulltext : bool)
  : option string :=
  let idx := Z.shiftl status 1 + (if fulltext then 1 else 0) in
  if idx <? 0 then None else nth_error map_status_text (Z.to_nat idx).

End Status.
Export Status.

(** ** Machine integers *)

Definition two64 : Z := 2 ^ 64.

(** A value of type [uintptr_t], [size_t] or [void*]. *)
Definition is_ptr (a : Z) : Prop := 0 <= a < two64.

(** Unsigned 64-bit wrap-around. *)
Definition wrap64 (z : Z) : Z := z mod two64.

(** The value of a 64-bit pattern read as [ptrdiff_t]. *)
Definition signed64 (z : Z) : Z :=
  let u := wrap64 z in if u <? 2 ^ 63 then u else u - two64.

Definition NULL : Z := 0.

(** ** Ranges, alignment, validation *)

Record mem_range := { from : Z; to : Z }.

(** [#define HPS (2L * 1024 * 1024)] *)
Definition HPS : Z := 2 * 1024 * 1024.

(** [addr & ~(HPS - 1)]: the mask is the [long] value [~(HPS - 1)]
    converted to [uintptr_t]. *)
Definition largepage_align_down (addr : Z) : Z :=
  Z.land addr (wrap64 (Z.lnot (HPS - 1))).

(** [largepage_align_down(addr + HPS - 1)], the sum wrapping at 64 bits. *)
Definition largepage_align_up (addr : Z) : Z :=
  largepage_align_down (wrap64 (addr + HPS - 1)).

Definition AlignRegionToPageBoundary (r : mem_range) : mem_range :=
  {| from := largepage_align_up (from r);
     to := largepage_align_down (to r) |}.

(** Pointers compare as unsigned addresses; [r->to - r->from] is a
    [ptrdiff_t], compared with the [long] constant [HPS]. *)
Definition CheckMemRange (r : mem_range) : map_status :=
  if (from r =? NULL) || (to r =? NULL) || (from r >? to r) then
    map_invalid_region_address
  else if signed64 (to r - from r) <? HPS then
    map_region_too_small
  else
    map_ok.

(** The invariant of a validated range (spec, data model). *)
Definition validated (r : mem_range) : Prop :=
  from r mod HPS = 0 /\ to r mod HPS = 0 /\
  from r < to r /\ to r - from r >= HPS.

(** ** The address space *)

(** Protection bits, mapping flags and advice of [<sys/mman.h>] on Linux. *)
Definition PROT_READ : Z := 1.
Definition PROT_WRITE : Z := 2.
Definition PROT_EXEC : Z := 4.
Definition MAP_PRIVATE : Z := 2.
Definition MAP_FIXED : Z := 16.
Definition MAP_ANONYMOUS : Z := 32.
Definition MADV_HUGEPAGE : Z := 14.

(** [MAP_FAILED] is [(void* )-1]. *)
Definition MAP_FAILED : Z := two64 - 1.

(** One mapped byte: the protection of its mapping, its content, and
    whether the mapping was advised to use huge pages. *)
Record cell := { c_prot : Z; c_byte : byte; c_huge : bool }.

(** The address space of the process: [None] is an unmapped address. *)
Definition mem := Z -> option cell.

Definition readable (c : cell) : bool := Z.testbit (c_prot c) 0.
Definition writable (c : cell) : bool := Z.testbit (c_prot c) 1.
Definition executable (c : cell) : bool := Z.testbit (c_prot c) 2.

(** [a] lies in the [len] bytes starting at [p]. *)
Definition in_range (p len a : Z) : bool := (p <=? a) && (a <? p + len).

(** A successful anonymous [mmap]: fresh zero-filled cells; at a fixed
    address they replace whatever was mapped there. *)
Definition map_range (p len prot : Z) (m : mem) : mem :=
  fun a =>
    if in_range p len a
    then Some {| c_prot := prot; c_byte := x00; c_huge := false |}
    else m a.

(** A successful [munmap]. *)
Definition unmap_range (p len : Z) (m : mem) : mem :=
  fun a => if in_range p len a then None else m a.

(** A successful [mprotect]. *)
Definition protect_range (p len prot : Z) (m : mem) : mem :=
  fun a =>
    if in_range p len a
    then option_map
           (fun c => {| c_prot := prot; c_byte := c_byte c;
                        c_huge := c_huge c |}) (m a)
    else m a.

(** A successful [madvise(MADV_HUGEPAGE)]. *)
Definition advise_range (p len : Z) (m : mem) : mem :=
  fun a =>
    if in_range p len a
    then option_map
           (fun c => {| c_prot := c_prot c; c_byte := c_byte c;
                        c_huge := true |}) (m a)
    else m a.

(** [memcpy(dst, src, len)].  In C a copy from an address that is not
    mapped readable, or to one that is not mapped writable, faults; here
    such a byte is left as it is, and the lemmas on contents assume the
    code readable. *)
Definition copy_range (dst src len : Z) (m : mem) : mem :=
  fun a =>
    if in_range dst len a
    then match m a, m (src + (a - dst)) with
         | Some d, Some s =>
             if writable d && readable s
             then Some {| c_prot := c_prot d; c_byte := c_byte s;
                          c_huge := c_huge d |}
             else m a
         | _, _ => m a
         end
    else m a.

(** ** The process and its system calls *)

(** System calls as a tracer shows them: arguments, then result. *)
Inductive syscall :=
| SysMmap (addr len prot flags ret : Z)
| SysMunmap (addr len ret : Z)
| SysMadvise (addr len advice ret : Z)
| SysMprotect (addr len prot ret : Z).

(** The two diagnostics of [AlignMoveRegionToLargePages]. *)
Inductive diagnostic :=
| FoundRegion (lo hi : Z)
| AlignedTo (lo hi pages : Z).

Record world := {
  memory : mem;
  syscalls : list syscall;   (* oldest first *)
  stderr : list diagnostic   (* oldest first *)
}.

(** What the kernel answers to each call of [MoveRegionToLargePages]: the
    address it picks for the scratch region or [MAP_FAILED], its answer to
    the fixed mapping, and whether each further call succeeds. *)
Record kernel := {
  k_mmap_nmem : Z;
  k_mmap_tmem : Z;
  k_madvise : bool;
  k_mprotect : bool;
  k_munmap_tmem : bool;
  k_munmap_nmem : bool
}.

(** Computations on the process state. *)
Definition M (A : Type) : Type := world -> A * world.

Definition ret {A} (a : A) : M A := fun w => (a, w).

Definition bind {A B} (c : M A) (f : A -> M B) : M B :=
  fun w => let (a, w') := c w in f a w'.

Notation "x <- c1 ;; c2" := (bind c1 (fun x => c2))
  (at level 61, c1 at next level, right associativity).
Notation "c1 ;; c2" := (bind c1 (fun _ => c2))
  (at level 61, right associativity).

Definition traced (e : syscall) (m : mem) (w : world) : world :=
  {| memory := m; syscalls := syscalls w ++ [e]; stderr := stderr w |}.

(** [mmap(addr, len, prot, flags, -1, 0)] with the kernel's [answer]; a
    failed call changes nothing, a fixed one succeeds at [addr]. *)
Definition mmap (answer addr len prot flags : Z) : M Z :=
  fun w =>
    let r := if answer =? MAP_FAILED then MAP_FAILED
             else if Z.testbit flags 4 then addr else answer in
    let m := if r =? MAP_FAILED then memory w
             else map_range r len prot (memory w) in
    (r, traced (SysMmap addr len prot flags r) m w).

(** The calls below return [0] on success and [-1] on failure, and a
    failed call changes nothing. *)
Definition munmap (ok : bool) (addr len : Z) : M Z :=
  fun w =>
    if ok then (0, traced (SysMunmap addr len 0)
                          (unmap_range addr len (memory w)) w)
    else (-1, traced (SysMunmap addr len (-1)) (memory w) w).

Definition madvise (ok : bool) (addr len advice : Z) : M Z :=
  fun w =>
    if ok then (0, traced (SysMadvise addr len advice 0)
                          (advise_range addr len (memory w)) w)
    else (-1, traced (SysMadvise addr len advice (-1)) (memory w) w).

Definition mprotect (ok : bool) (addr len prot : Z) : M Z :=
  fun w =>
    if ok then (0, traced (SysMprotect addr len prot 0)
                          (protect_range addr len prot (memory w)) w)
    else (-1, traced (SysMprotect addr len prot (-1)) (memory w) w).

Definition memcpy (dst src len : Z) : M unit :=
  fun w =>
    (tt, {| memory := copy_range dst src len (memory w);
            syscalls := syscalls w; stderr := stderr w |}).

Definition fprintf_stderr (d : diagnostic) : M unit :=
  fun w =>
    (tt, {| memory := memory w; syscalls := syscalls w;
            stderr := stderr w ++ [d] |}).

(** ** The remapper *)

(** The first [CLEAN_EXIT_CHECK], taken when [tmem == MAP_FAILED]. *)
Definition clean_exit_nmem (k : kernel)
    (oper_failed oper_munmap_nmem_failed : map_status)
    (nmem size : Z) : M map_status :=
  r <- munmap (k_munmap_nmem k) nmem size ;;
  ret (if r <? 0 then oper_munmap_nmem_failed else oper_failed).

(** The second [CLEAN_EXIT_CHECK], taken when [ret < 0]. *)
Definition clean_exit_tmem_nmem (k : kernel)
    (oper_failed oper_munmap_tmem_failed oper_munmaps_failed
       oper_munmap_nmem_failed : map_status)
    (tmem nmem size : Z) : M map_status :=
  let status := oper_failed in
  r <- munmap (k_munmap_tmem k) tmem size ;;
  let status := if r <? 0 then oper_munmap_tmem_failed else status in
  r <- munmap (k_munmap_nmem k) nmem size ;;
  ret (if r <? 0
       then (if status =? oper_munmap_tmem_failed
             then oper_munmaps_failed
             else oper_munmap_nmem_failed)
       else status).

Definition MoveRegionToLargePages (k : kernel) (r : mem_range)
  : M map_status :=
  let start := from r in
  let size := wrap64 (to r - from r) in
  nmem <- mmap (k_mmap_nmem k) NULL size
               (Z.lor PROT_READ PROT_WRITE)
               (Z.lor MAP_PRIVATE MAP_ANONYMOUS) ;;
  if nmem =? MAP_FAILED then ret map_see_errno else
  memcpy nmem (from r) size ;;
  tmem <- mmap (k_mmap_tmem k) start size
               (Z.lor (Z.lor PROT_READ PROT_WRITE) PROT_EXEC)
               (Z.lor (Z.lor MAP_PRIVATE MAP_ANONYMOUS) MAP_FIXED) ;;
  if tmem =? MAP_FAILED then
    clean_exit_nmem k map_see_errno_mmap_tmem_failed
      map_see_errno_mmap_tmem_munmap_nmem_failed nmem size
  else
  r1 <- madvise (k_madvise k) tmem size MADV_HUGEPAGE ;;
  if r1 <? 0 then
    clean_exit_tmem_nmem k map_see_errno_madvise_tmem_failed
      map_see_errno_madvise_tmem_munmap_tmem_failed
      map_see_errno_madvise_tmem_munmaps_failed
      map_see_errno_madvise_tmem_munmap_nmem_failed tmem nmem size
  else
  memcpy start nmem size ;;
  r2 <- mprotect (k_mprotect k) start size (Z.lor PROT_READ PROT_EXEC) ;;
  if r2 <? 0 then
    clean_exit_tmem_nmem k map_see_errno_mprotect_failed
      map_see_errno_mprotect_munmap_tmem_failed
      map_see_errno_mprotect_munmaps_failed
      map_see_errno_mprotect_munmap_nmem_failed tmem nmem size
  else
  r3 <- munmap (k_munmap_nmem k) nmem size ;;
  ret (if r3 <? 0 then map_see_errno_munmap_nmem_failed else map_ok).

(** ** Alignment, validation and the explicit-range entry point *)

Definition AlignMoveRegionToLargePages (k : kernel) (r : mem_range)
  : M map_status :=
  fprintf_stderr (FoundRegion (from r) (to r)) ;;
  let r := AlignRegionToPageBoundary r in
  fprintf_stderr
    (AlignedTo (from r) (to r) (wrap64 (to r - from r) / HPS)) ;;
  let status := CheckMemRange r in
  if negb (status =? map_ok) then ret status
  else MoveRegionToLargePages k r.

Definition MapStaticCodeRangeToLargePages (k : kernel) (from_ to_ : Z)
  : M map_status :=
  AlignMoveRegionToLargePages k {| from := from_; to := to_ |}.

(** ** Locating the code region of a loaded module *)

(** A section header of an ELF image, its name read through the
    section-name string table. *)
Record Shdr := { sh_name : string; sh_addr : Z; sh_size : Z }.

(** An entry of the dynamic loader's list of loaded objects. *)
Record dl_phdr_info := { dlpi_name : string; dlpi_addr : Z }.

(** What the file system and the kernel do for one file name: whether
    [stat] and [open] succeed, the section headers that the read-only
    mapping of the file shows ([None]: [mmap] failed), and whether the
    [munmap] of that mapping and the [close] succeed.  That mapping is
    read for its headers only and is not entered in [mem]. *)
Record exe_file := {
  stat_ok : bool;
  open_ok : bool;
  image : option (list Shdr);
  munmap_ok : bool;
  close_ok : bool
}.

(** [dl_iterate_phdr] of the C library: the callback is called on each
    loaded object in turn until it returns a nonzero value; the result is
    the value of the last call, [0] for no call. *)
Fixpoint dl_iterate_phdr {D : Type}
    (callback : dl_phdr_info -> D -> Z * D)
    (objects : list dl_phdr_info) (data : D) : Z * D :=
  match objects with
  | [] => (0, data)
  | hdr :: rest =>
      let (r, data') := callback hdr data in
      if r =? 0 then dl_iterate_phdr callback rest data' else (r, data')
  end.

(** The loop over the section headers: every header whose name starts with
    [.text] overwrites [shdr_text]. *)
Definition find_text (shdrs : list Shdr) : option Shdr :=
  fold_left
    (fun shdr_text sh =>
       if String.prefix ".text" (sh_name sh) then Some sh else shdr_text)
    shdrs None.

Section Loader.

(** POSIX regular expressions: [regcomp] compiles a pattern or fails,
    [regexec] tells whether a compiled pattern matches a name. *)
Variable regex_t : Type.
Variable regcomp : string -> option regex_t.
Variable regexec : regex_t -> string -> bool.

(** The files behind the loaded objects, and the objects in the order the
    loader lists them. *)
Variable fs : string -> exe_file.
Variable objects : list dl_phdr_info.

Record FindParams := {
  start : Z;
  end_ : Z;
  regex : option regex_t;   (* [None]: the zeroed, never compiled regex *)
  have_regex : bool
}.

Definition name_is_empty (hdr : dl_phdr_info) : bool :=
  match dlpi_name hdr with EmptyString => true | _ => false end.

Definition regex_matches (fp : FindParams) (name : string) : bool :=
  match regex fp with Some re => regexec re name | None => false end.

Definition FindMapping (hdr : dl_phdr_info) (find_params : FindParams)
  : Z * FindParams :=
  if (have_regex find_params && regex_matches find_params (dlpi_name hdr))
     || name_is_empty hdr
  then
    let filename :=
      if name_is_empty hdr then "/proc/self/exe" else dlpi_name hdr in
    let f := fs filename in
    if negb (stat_ok f) then (- map_failed_to_stat_exe, find_params) else
    if negb (open_ok f) then (- map_failed_to_open_exe, find_params) else
    match image f with
    | None => (- map_failed_to_map_exe_see_errno, find_params)
    | Some shdrs =>
        match find_text shdrs with
        | None => (- map_failed_to_find_text_section, find_params)
        | Some shdr_text =>
            let s := wrap64 (sh_addr shdr_text + dlpi_addr hdr) in
            let find_params :=
              {| start := s;
                 end_ := wrap64 (s + sh_size shdr_text);
                 regex := regex find_params;
                 have_regex := have_regex find_params |} in
            if negb (munmap_ok f) then
              (map_failed_to_unmap_exe_see_errno, find_params)
            else if negb (close_ok f) then
              (- map_failed_to_close_exe_see_errno, find_params)
            else (1, find_params)
        end
    end
  else (- map_region_not_found, find_params).

(** [FindTextRegion(lib_regex, region)]: the status and the region as the
    call leaves it. *)
Definition FindTextRegion (lib_regex : option string) (region : mem_range)
  : map_status * mem_range :=
  let init :=
    {| start := 0; end_ := 0; regex := None; have_regex := false |} in
  let compiled :=
    match lib_regex with
    | None => Some init
    | Some pattern =>
        match regcomp pattern with
        | None => None
        | Some re =>
            Some {| start := 0; end_ := 0; regex := Some re;
                    have_regex := true |}
        end
    end in
  match compiled with
  | None => (map_invalid_regex, region)
  | Some find_params =>
      let (status, find_params) :=
        dl_iterate_phdr FindMapping objects find_params in
      if status <? 0 then (- status, region)
      else (map_ok,
            {| from := start find_params; to := end_ find_params |})
  end.

Definition MapStaticCodeToLargePages (k : kernel) : M map_status :=
  let r := {| from := 0; to := 0 |} in
  let (status, r) := FindTextRegion None r in
  if negb (status =? map_ok) then ret status
  else AlignMoveRegionToLargePages k r.

Definition MapDSOToLargePages (k : kernel) (lib_regex : option string)
  : M map_status :=
  let r := {| from := 0; to := 0 |} in
  match lib_regex with
  | None => ret map_null_regex
  | Some _ =>
      let (status, r) := FindTextRegion lib_regex r in
      if negb (status =? map_ok) then ret status
      else AlignMoveRegionToLargePages k r
  end.

End Loader.

Arguments start {regex_t} _.
Arguments end_ {regex_t} _.
Arguments regex {regex_t} _.
Arguments have_regex {regex_t} _.

(** Patterns without special characters match a name exactly when they
    occur in it; enough of POSIX matching to run the loader on examples. *)
Definition literal_regcomp (pattern : string) : option string := Some pattern.

Definition literal_regexec (pattern name : string) : bool :=
  match String.index 0 pattern name with Some _ => true | None => false end.

(** ** Probing transparent huge pages *)

(** [isspace] in the C locale: space and the controls from tab to
    carriage return. *)
Definition isspace (c : ascii) : bool :=
  let n := nat_of_ascii c in
  ((n =? 32) || ((9 <=? n) && (n <=? 13)))%nat.

(** White space before a conversion is skipped. *)
Fixpoint skip_space (s : string) : string :=
  match s with
  | EmptyString => EmptyString
  | String c s' => if isspace c then skip_space s' else s
  end.

(** The characters up to the next white space or the end of the input, and
    the rest of the input. *)
Fixpoint scan_word (s : string) : string * string :=
  match s with
  | EmptyString => (EmptyString, EmptyString)
  | String c s' =>
      if isspace c then (EmptyString, s)
      else let (w, rest) := scan_word s' in (String c w, rest)
  end.

(** One [%s] conversion: [None] when the input ends before a word. *)
Definition conv_s (input : string) : option (string * string) :=
  match skip_space input with
  | EmptyString => None
  | s => Some (scan_word s)
  end.

(** A word and its terminating NUL fit a [char[16]]. *)
Definition fits16 (w : string) : bool := (String.length w <? 16)%nat.

Definition EOF : Z := -1.

(** [fscanf(ifs, "%s %s %s", always, madvise, never)] on the content of the
    file: the number of conversions (or [EOF]) and the three buffers.  The
    white space in the format skips what [%s] skips anyway.  [None] is the
    undefined behaviour of a word overrunning its buffer. *)
Definition fscanf_sss (input always madvise never : string)
  : option (Z * (string * string * string)) :=
  match conv_s input with
  | None => Some (EOF, (always, madvise, never))
  | Some (w1, rest1) =>
      if negb (fits16 w1) then None else
      match conv_s rest1 with
      | None => Some (1, (w1, madvise, never))
      | Some (w2, rest2) =>
          if negb (fits16 w2) then None else
          match conv_s rest2 with
          | None => Some (2, (w1, w2, never))
          | Some (w3, _) =>
              if negb (fits16 w3) then None else Some (3, (w1, w2, w3))
          end
      end
  end.

(** The C string held by a buffer: its bytes before the first NUL. *)
Fixpoint c_str (s : string) : string :=
  match s with
  | EmptyString => EmptyString
  | String c s' =>
      if (nat_of_ascii c =? 0)%nat then EmptyString else String c (c_str s')
  end.

(** [strcmp(a, b) == 0] *)
Definition strcmp_eq (a b : string) : bool := String.eqb (c_str a) (c_str b).

(** [IsTransparentHugePagesEnabled(result)].  [ENABLE_LARGE_CODE_PAGES] is
    the build switch of the missing header; [thp_file] is the content of
    [/sys/kernel/mm/transparent_hugepage/enabled], [None] when [fopen]
    fails; [result] is what [*result] holds before the call.  The answer is
    the status and [*result] after the call. *)
Definition IsTransparentHugePagesEnabled (ENABLE_LARGE_CODE_PAGES : bool)
    (thp_file : option string) (result : bool)
  : option (map_status * bool) :=
  if negb ENABLE_LARGE_CODE_PAGES then Some (map_unsupported_platform, result)
  else
    let result := false in
    match thp_file with
    | None => Some (map_failed_to_open_thp_file, result)
    | Some content =>
        match fscanf_sss content "" "" "" with
        | None => None
        | Some (matched, (always, madvise, never)) =>
            if negb (matched =? 3) then Some (map_malformed_thp_file, result)
            else if strcmp_eq always "[always]" then Some (map_ok, true)
            else if strcmp_eq madvise "[madvise]" then Some (map_ok, true)
            else if strcmp_eq never "[never]" then Some (map_ok, false)
            else Some (map_ok, result)
        end
    end.

Definition IsLargePagesEnabled (ENABLE_LARGE_CODE_PAGES : bool)
    (thp_file : option string) (result : bool)
  : option (map_status * bool) :=
  IsTransparentHugePagesEnabled ENABLE_LARGE_CODE_PAGES thp_file result.

(** *** The capability file as the specification describes it *)

(** The white-space-separated tokens of a text: the maximal runs of
    characters that are not white space.  [cur] is the run being read. *)
Fixpoint tokens_from (cur : string) (s : string) : list string :=
  match s with
  | EmptyString =>
      match cur with EmptyString => [] | _ => [cur] end
  | String c s' =>
      if isspace c then
        match cur with
        | EmptyString => tokens_from EmptyString s'
        | _ => cur :: tokens_from EmptyString s'
        end
      else tokens_from (cur ++ String c EmptyString) s'
  end.

Definition tokens (s : string) : list string := tokens_from EmptyString s.

(** The three modes of the policy line. *)
Inductive thp_mode := Always | Madvise | Never.

(** The policy line with [mode] bracket-marked as active. *)
Definition policy_tokens (mode : thp_mode) : list string :=
  match mode with
  | Always => ["[always]"; "madvise"; "never"]
  | Madvise => ["always"; "[madvise]"; "never"]
  | Never => ["always"; "madvise"; "[never]"]
  end.

Definition mode_enabled (mode : thp_mode) : bool :=
  match mode with Always | Madvise => true | Never => false end.

(** A token that a [char[16]] holds unchanged as a C string: short enough
    and free of NUL. *)
Definition c_token (t : string) : bool := fits16 t && String.eqb (c_str t) t.

(** ** Properties of the address space *)

(** Every address of the range is mapped and may be read and executed. *)
Definition code_mapped (m : mem) (r : mem_range) : Prop :=
  forall a, from r <= a < to r ->
    exists c, m a = Some c /\ readable c = true /\ executable c = true.

(** No address of the range is mapped. *)
Definition unmapped (m : mem) (p len : Z) : Prop :=
  forall a, p <= a < p + len -> m a = None.

(** The contract of [mmap] without [MAP_FIXED]: the region the kernel
    picks for the scratch copy of [r] was free before the call. *)
Definition fresh_scratch (k : kernel) (m : mem) (r : mem_range) : Prop :=
  k_mmap_nmem k <> MAP_FAILED ->
  unmapped m (k_mmap_nmem k) (to r - from r).

(** The range holds, byte for byte, what [m0] held there. *)
Definition same_bytes (m0 m : mem) (r : mem_range) : Prop :=
  forall a, from r <= a < to r ->
    option_map c_byte (m a) = option_map c_byte (m0 a) /\ m a <> None.

(** The range is mapped with exactly the protection [prot]. *)
Definition protected_as (prot : Z) (m : mem) (r : mem_range) : Prop :=
  forall a, from r <= a < to r ->
    option_map c_prot (m a) = Some prot.

(** The failures whose rollback released the fixed-address mapping. *)
Definition rollback_released_target (s : map_status) : bool :=
  (s =? map_see_errno_madvise_tmem_failed)
  || (s =? map_see_errno_madvise_tmem_munmap_nmem_failed)
  || (s =? map_see_errno_mprotect_failed)
  || (s =? map_see_errno_mprotect_munmap_nmem_failed).

(** The failures that precede the replacement of the original mapping. *)
Definition failed_before_replacement (s : map_status) : bool :=
  (s =? map_see_errno)
  || (s =? map_see_errno_mmap_tmem_failed)
  || (s =? map_see_errno_mmap_tmem_munmap_nmem_failed).

(** The process after the two diagnostics of
    [AlignMoveRegionToLargePages] on [r]. *)
Definition diagnosed (r : mem_range) (w : world) : world :=
  let r' := AlignRegionToPageBoundary r in
  {| memory := memory w; syscalls := syscalls w;
     stderr := (stderr w ++ [FoundRegion (from r) (to r)])
               ++ [AlignedTo (from r') (to r')
                     (wrap64 (to r' - from r') / HPS)] |}.

(** ** Example processes *)

(** A process whose code occupies the second huge page, as [r-x] bytes. *)
Definition text_range : mem_range := {| from := 0x200000; to := 0x400000 |}.

Definition code_memory : mem :=
  fun a =>
    if in_range 0x200000 0x200000 a
    then Some {| c_prot := Z.lor PROT_READ PROT_EXEC; c_byte := x90;
                 c_huge := false |}
    else None.

Definition running : world :=
  {| memory := code_memory; syscalls := []; stderr := [] |}.

(** Kernels: every call succeeds; [madvise] fails and the rollback
    succeeds; only the final release of the scratch region fails. *)
Definition kernel_ok : kernel :=
  {| k_mmap_nmem := 0x40000000; k_mmap_tmem := 0x200000;
     k_madvise := true; k_mprotect := true;
     k_munmap_tmem := true; k_munmap_nmem := true |}.

Definition kernel_madvise_fails : kernel :=
  {| k_mmap_nmem := 0x40000000; k_mmap_tmem := 0x200000;
     k_madvise := false; k_mprotect := true;
     k_munmap_tmem := true; k_munmap_nmem := true |}.

Definition kernel_release_fails : kernel :=
  {| k_mmap_nmem := 0x40000000; k_mmap_tmem := 0x200000;
     k_madvise := true; k_mprotect := true;
     k_munmap_tmem := true; k_munmap_nmem := false |}.

(** Loaded objects: the main executable, whose name is empty, and one
    shared library. *)
Definition main_exe : dl_phdr_info :=
  {| dlpi_name := ""; dlpi_addr := 0x400000 |}.

Definition libfoo : dl_phdr_info :=
  {| dlpi_name := "/usr/lib/libfoo.so"; dlpi_addr := 0x7f0000000000 |}.

Definition elf_sections : list Shdr :=
  [ {| sh_name := ""; sh_addr := 0; sh_size := 0 |};
    {| sh_name := ".text"; sh_addr := 0x1000; sh_size := 0x600000 |};
    {| sh_name := ".data"; sh_addr := 0x700000; sh_size := 0x1000 |} ].

(** Every file call succeeds. *)
Definition fs_ok (filename : string) : exe_file :=
  {| stat_ok := true; open_ok := true; image := Some elf_sections;
     munmap_ok := true; close_ok := true |}.

(** The [munmap] of the scratch mapping of the file fails. *)
Definition fs_unmap_fails (filename : string) : exe_file :=
  {| stat_ok := true; open_ok := true; image := Some elf_sections;
     munmap_ok := false; close_ok := true |}.

(** Contents of the capability file. *)
Definition thp_always : string := "[always] madvise never".
Definition thp_never : string := "always madvise [never]".
Definition thp_four_tokens : string := "always madvise [never] extra".
Definition thp_garbage : string := "foo [never] [always]".

(** The [close] of the file fails. *)
Definition fs_close_fails (filename : string) : exe_file :=
  {| stat_ok := true; open_ok := true; image := Some elf_sections;
     munmap_ok := true; close_ok := false |}.

(** The objects of the example process, in the loader's order. *)
Definition loaded : list dl_phdr_info := [main_exe; libfoo].

(** The example process with the [.text] section of its main executable
    mapped where the loader put it. *)
Definition exe_memory : mem :=
  fun a =>
    if in_range 0x401000 0x600000 a
    then Some {| c_prot := Z.lor PROT_READ PROT_EXEC; c_byte := x90;
                 c_huge := false |}
    else None.

Definition exe_running : world :=
  {| memory := exe_memory; syscalls := []; stderr := [] |}.

(** [find_params] as [FindTextRegion] initialises it without a pattern. *)
Definition no_pattern : FindParams string :=
  {| start := 0; end_ := 0; regex := None; have_regex := false |}.

(** ** The outcomes of the remapper *)

(** The step at which a run of the remapper ends, with the outcome of each
    rollback [munmap] it makes ([true]: the region was released). *)
Inductive remap_path :=
| ScratchFailed
| FixedFailed (nmem_released : bool)
| AdviseFailed (tmem_released nmem_released : bool)
| ProtectFailed (tmem_released nmem_released : bool)
| ReleaseFailed
| Remapped.

(** The path that the answers of the kernel select. *)
Definition remap_path_of (k : kernel) : remap_path :=
  if k_mmap_nmem k =? MAP_FAILED then ScratchFailed
  else if k_mmap_tmem k =? MAP_FAILED then FixedFailed (k_munmap_nmem k)
  else if negb (k_madvise k)
       then AdviseFailed (k_munmap_tmem k) (k_munmap_nmem k)
  else if negb (k_mprotect k)
       then ProtectFailed (k_munmap_tmem k) (k_munmap_nmem k)
  else if negb (k_munmap_nmem k) then ReleaseFailed
  else Remapped.

(** The statuses that report a failed [munmap] of the scratch region. *)
Definition reports_scratch_kept (s : map_status) : bool :=
  (s =? map_see_errno_mmap_tmem_munmap_nmem_failed)
  || (s =? map_see_errno_madvise_tmem_munmap_nmem_failed)
  || (s =? map_see_errno_madvise_tmem_munmaps_failed)
  || (s =? map_see_errno_mprotect_munmap_nmem_failed)
  || (s =? map_see_errno_mprotect_munmaps_failed)
  || (s =? map_see_errno_munmap_nmem_failed).

(** Every address of the range is advised to use huge pages. *)
Definition huge_advised (m : mem) (r : mem_range) : Prop :=
  forall a, from r <= a < to r -> option_map c_huge (m a) = Some true.

(** No string occurs twice in the list. *)
Fixpoint no_repeat (l : list string) : bool :=
  match l with
  | [] => true
  | x :: l' => negb (existsb (String.eqb x) l') && no_repeat l'
  end.

(** ** The start-up hook ([lp_preload.c]) *)

(** What the hook finds in its environment: the value of [TMPDIR], the
    process id, the file that [mkstemp] creates from a template ([None]:
    it returns [-1]) and whether [fdopen] succeeds on that file. *)
Record hook_env := {
  env_TMPDIR : option string;
  env_pid : Z;
  env_mkstemp : string -> option string;
  env_fdopen : string -> bool
}.

Definition newline : string := String (ascii_of_nat 10) EmptyString.

(** [%d] *)
Definition decimal (z : Z) : string := NilZero.string_of_int (Z.to_int z).

(** [open_log()]: the name of the log file opened, [None] for [NULL].
    [snprintf] with the size 255 keeps at most 254 characters of the
    template. *)
Definition open_log (e : hook_env) : option string :=
  let tmpdir :=
    match env_TMPDIR e with None => "/tmp" | Some dir => dir end in
  let pattern :=
    substring 0 254
      (tmpdir ++ "/lp_preload." ++ decimal (env_pid e) ++ ".XXXXXX") in
  match env_mkstemp e pattern with
  | None => None
  | Some file => if env_fdopen e file then Some file else None
  end.

(** The hook when it returns: where its log went ([None]: to the standard
    error stream, which is then left open), the lines it wrote there, and
    the process. *)
Record hook_result := {
  log_file : option string;
  log_lines : list string;
  process : world
}.

Definition not_enabled_message : string :=
  "Mapping to large pages in not enabled on your system. "
  ++ "Make sure /sys/kernel/mm/transparent_hugepage/enabled is set to "
  ++ "'madvise' or 'enabled'" ++ newline.

Section Hook.

Variable regex_t : Type.
Variable regcomp : string -> option regex_t.
Variable regexec : regex_t -> string -> bool.
Variable fs : string -> exe_file.
Variable objects : list dl_phdr_info.

(** The code from the label [fail] on.  [None] is an undefined text: a
    status outside the table of [MapStatusStr]. *)
Definition hook_fail (log : option string) (status : map_status)
    (is_enabled : bool) (w : world) : option hook_result :=
  if status =? map_ok then
    Some {| log_file := log;
            log_lines := if negb is_enabled then [not_enabled_message]
                         else [];
            process := w |}
  else
    match MapStatusStr status true with
    | None => None
    | Some text =>
        Some {| log_file := log;
                log_lines :=
                  ["Mapping to large pages failed: " ++ text ++ newline];
                process := w |}
    end.

(** [map_to_large_pages()], the constructor of the preloaded library.
    [None] is undefined behaviour, of the probe or of the log line. *)
Definition map_to_large_pages (e : hook_env)
    (ENABLE_LARGE_CODE_PAGES : bool) (thp_file : option string)
    (k : kernel) (w : world) : option hook_result :=
  let log := open_log e in
  let is_enabled := true in
  match IsLargePagesEnabled ENABLE_LARGE_CODE_PAGES thp_file is_enabled with
  | None => None
  | Some (status, is_enabled) =>
      if negb (status =? map_ok) then hook_fail log status is_enabled w
      else if negb is_enabled then hook_fail log status is_enabled w
      else
        let (status, w') :=
          MapStaticCodeToLargePages regex_t regcomp regexec fs objects k w in
        if negb (status =? map_ok) then hook_fail log status is_enabled w'
        else Some {| log_file := log; log_lines := []; process := w' |}
  end.

End Hook.

(** An environment of the hook: no [TMPDIR], and a log file that opens
    under the name of its template. *)
Definition hook_env_tmp : hook_env :=
  {| env_TMPDIR := None; env_pid := 4242;
     env_mkstemp := fun template => Some template;
     env_fdopen := fun _ => true |}.

(** The failures of [madvise] whose rollback could not release the
    fixed-address mapping: it stays as [mmap] made it. *)
Definition left_zero_filled (s : map_status) : bool :=
  (s =? map_see_errno_madvise_tmem_munmap_tmem_failed)
  || (s =? map_see_errno_madvise_tmem_munmaps_failed).

(** The failures of [mprotect] whose rollback could not release the
    fixed-address mapping: it stays as the copy back left it. *)
Definition left_writable_copy (s : map_status) : bool :=
  (s =? map_see_errno_mprotect_munmap_tmem_failed)
  || (s =? map_see_errno_mprotect_munmaps_failed).

(** [madvise] fails and so does the rollback [munmap] of the fixed-address
    mapping. *)
Definition kernel_madvise_unmap_fail : kernel :=
  {| k_mmap_nmem := 0x40000000; k_mmap_tmem := 0x200000;
     k_madvise := false; k_mprotect := true;
     k_munmap_tmem := false; k_munmap_nmem := true |}.

(** * Proofs *)

(** ** Machine arithmetic and alignment *)

Ltac euclid := Z.to_euclidean_division_equations; lia.

Lemma HPS_value : HPS = 2 ^ 21.
Proof. reflexivity. Qed.

Lemma two64_value : two64 = 18446744073709551616.
Proof. reflexivity. Qed.

Lemma align_mask :
  wrap64 (Z.lnot (HPS - 1)) = Z.land (Z.ones 64) (Z.lnot (Z.ones 21)).
Proof. reflexivity. Qed.

Lemma largepage_align_down_div (a : Z) :
  is_ptr a -> largepage_align_down a = HPS * (a / HPS).
Proof.
  intros [Ha0 Ha1].
  unfold largepage_align_down. rewrite align_mask, Z.land_assoc.
  rewrite Z.land_ones by lia.
  change (2 ^ 64) with two64. rewrite Z.mod_small by lia.
  rewrite <- Z.ldiff_land, Z.ldiff_ones_r by lia.
  rewrite Z.shiftr_div_pow2, Z.shiftl_mul_pow2 by lia.
  rewrite HPS_value. lia.
Qed.

Lemma wrap64_ptr (z : Z) : is_ptr (wrap64 z).
Proof. unfold is_ptr, wrap64. rewrite two64_value. euclid. Qed.

Lemma largepage_align_up_div (a : Z) :
  largepage_align_up a = HPS * (wrap64 (a + HPS - 1) / HPS).
Proof. apply largepage_align_down_div, wrap64_ptr. Qed.

Lemma signed64_small (z : Z) : 0 <= z < 2 ^ 63 -> signed64 z = z.
Proof.
  intros H. unfold signed64, wrap64. rewrite two64_value.
  rewrite Z.mod_small by lia.
  destruct (Z.ltb_spec z (2 ^ 63)); lia.
Qed.

Lemma signed64_large (z : Z) : 2 ^ 63 <= z < two64 -> signed64 z = z - two64.
Proof.
  intros H. unfold signed64, wrap64. rewrite two64_value in *.
  rewrite Z.mod_small by lia.
  destruct (Z.ltb_spec z (2 ^ 63)); lia.
Qed.

Lemma CheckMemRange_ok (r : mem_range) :
  is_ptr (from r) -> is_ptr (to r) ->
  CheckMemRange r = map_ok ->
  from r <> 0 /\ HPS <= to r - from r.
Proof.
  intros [Hf0 Hf1] [Ht0 Ht1]. unfold CheckMemRange, NULL.
  destruct (Z.eqb_spec (from r) 0); [discriminate|].
  destruct (Z.eqb_spec (to r) 0); [discriminate|].
  destruct (Z.gtb_spec (from r) (to r)); [discriminate|]. simpl.
  destruct (Z.ltb_spec (signed64 (to r - from r)) HPS) as [Hs|Hs];
    [discriminate|].
  intros _. split; [assumption|].
  destruct (Z_lt_le_dec (to r - from r) (2 ^ 63)) as [Hd|Hd].
  - rewrite signed64_small in Hs by lia. lia.
  - rewrite signed64_large in Hs by lia. rewrite HPS_value in Hs. lia.
Qed.

Lemma aligned_is_ptr (r : mem_range) :
  is_ptr (from r) -> is_ptr (to r) ->
  is_ptr (from (AlignRegionToPageBoundary r)) /\
  is_ptr (to (AlignRegionToPageBoundary r)).
Proof.
  intros Hf Ht. simpl.
  rewrite largepage_align_up_div, (largepage_align_down_div (to r))
    by assumption.
  pose proof (wrap64_ptr (from r + HPS - 1)) as Hw.
  unfold is_ptr in *. rewrite two64_value, HPS_value in *. 
  change (2 ^ 21) with 2097152 in *.
  split; euclid.
Qed.

Lemma aligned_check_validated (r : mem_range) :
  is_ptr (from r) -> is_ptr (to r) ->
  CheckMemRange (AlignRegionToPageBoundary r) = map_ok ->
  validated (AlignRegionToPageBoundary r).
Proof.
  intros Hf Ht Hok.
  destruct (aligned_is_ptr r Hf Ht) as [Hf' Ht'].
  destruct (CheckMemRange_ok _ Hf' Ht' Hok) as [Hnz Hsz].
  unfold validated. simpl in *.
  rewrite largepage_align_up_div, (largepage_align_down_div (to r)) in *
    by assumption.
  repeat split; try lia.
  - rewrite Z.mul_comm. apply Z.mod_mul. discriminate.
  - rewrite Z.mul_comm. apply Z.mod_mul. discriminate.
  - rewrite HPS_value in *. lia.
Qed.

(** ** The remapper enters the kernel *)

Lemma AlignMove_unfold (k : kernel) (r : mem_range) (w : world) :
  AlignMoveRegionToLargePages k r w =
  if CheckMemRange (AlignRegionToPageBoundary r) =? map_ok
  then MoveRegionToLargePages k (AlignRegionToPageBoundary r) (diagnosed r w)
  else (CheckMemRange (AlignRegionToPageBoundary r), diagnosed r w).
Proof.
  unfold AlignMoveRegionToLargePages, bind, fprintf_stderr, ret, diagnosed.
  cbn [memory syscalls stderr].
  destruct (CheckMemRange (AlignRegionToPageBoundary r) =? map_ok);
    reflexivity.
Qed.

(** The first action of the remapper is a call of [mmap]: whatever the
    kernel answers, the trace of system calls grows.  A call that leaves
    the trace as it was has therefore not run the remapper. *)
Lemma Move_enters_kernel (k : kernel) (r : mem_range) (w : world) :
  exists e l,
    syscalls (snd (MoveRegionToLargePages k r w))
    = (syscalls w ++ e :: l)%list.
Proof.
  unfold MoveRegionToLargePages.
  set (size := wrap64 (to r - from r)).
  unfold bind at 1.
  destruct (mmap (k_mmap_nmem k) NULL size (Z.lor PROT_READ PROT_WRITE)
              (Z.lor MAP_PRIVATE MAP_ANONYMOUS) w) as [nmem w1] eqn:E1.
  assert (H1 : syscalls w1 =
               (syscalls w ++
                [SysMmap NULL size (Z.lor PROT_READ PROT_WRITE)
                   (Z.lor MAP_PRIVATE MAP_ANONYMOUS) nmem])%list).
  { unfold mmap in E1. injection E1 as <- <-. reflexivity. }
  destruct (nmem =? MAP_FAILED).
  { cbn [ret snd]. rewrite H1. eauto. }
  assert (grow : forall (c : M map_status) (w' : world),
             (exists l, syscalls w' = (syscalls w1 ++ l)%list) ->
             (forall w0, exists l,
                 syscalls (snd (c w0)) = (syscalls w0 ++ l)%list) ->
             exists e l,
               syscalls (snd (c w')) = (syscalls w ++ e :: l)%list).
  { intros c w' [l1 Hl1] Hc. destruct (Hc w') as [l2 Hl2].
    rewrite Hl2, Hl1, H1, <- !app_assoc. cbn [app]. eauto. }
  assert (unmaps : forall ok a n w0, exists l,
             syscalls (snd (munmap ok a n w0)) = (syscalls w0 ++ l)%list).
  { intros [] a n w0; cbn; eauto. }
  assert (cleans : forall s1 s2 s3 s4 t n w0, exists l,
             syscalls (snd (clean_exit_tmem_nmem k s1 s2 s3 s4 t n size w0))
             = (syscalls w0 ++ l)%list).
  { intros. unfold clean_exit_tmem_nmem, bind.
    destruct (unmaps (k_munmap_tmem k) t size w0) as [l1 Hl1].
    destruct (munmap (k_munmap_tmem k) t size w0) as [r1 wa].
    destruct (unmaps (k_munmap_nmem k) n size wa) as [l2 Hl2].
    destruct (munmap (k_munmap_nmem k) n size wa) as [r2 wb].
    cbn [ret snd] in *. rewrite Hl2, Hl1, <- app_assoc. eauto. }
  unfold bind.
  destruct (memcpy nmem (from r) size w1) as [[] w2] eqn:E2.
  assert (H2 : syscalls w2 = syscalls w1).
  { unfold memcpy in E2. injection E2 as <-. reflexivity. }
  destruct (mmap (k_mmap_tmem k) (from r) size _ _ w2) as [tmem w3] eqn:E3.
  assert (H3 : exists l, syscalls w3 = (syscalls w1 ++ l)%list).
  { unfold mmap in E3. injection E3 as <- <-. cbn [syscalls traced].
    rewrite H2. eauto. }
  destruct (tmem =? MAP_FAILED).
  { apply grow; [assumption|]. intros w0. unfold clean_exit_nmem, bind.
    destruct (unmaps (k_munmap_nmem k) nmem size w0) as [l Hl].
    destruct (munmap (k_munmap_nmem k) nmem size w0). cbn [ret snd] in *.
    eauto. }
  destruct (madvise (k_madvise k) tmem size MADV_HUGEPAGE w3)
    as [r1 w4] eqn:E4.
  assert (H4 : exists l, syscalls w4 = (syscalls w1 ++ l)%list).
  { destruct H3 as [l3 Hl3]. unfold madvise in E4.
    destruct (k_madvise k); injection E4 as <- <-; cbn [syscalls traced];
      rewrite Hl3, <- app_assoc; eauto. }
  destruct (r1 <? 0); [apply grow; [assumption | apply cleans]|].
  destruct (memcpy (from r) nmem size w4) as [[] w5] eqn:E5.
  assert (H5 : syscalls w5 = syscalls w4).
  { unfold memcpy in E5. injection E5 as <-. reflexivity. }
  destruct (mprotect (k_mprotect k) (from r) size _ w5) as [r2 w6] eqn:E6.
  assert (H6 : exists l, syscalls w6 = (syscalls w1 ++ l)%list).
  { destruct H4 as [l4 Hl4]. unfold mprotect in E6.
    destruct (k_mprotect k); injection E6 as <- <-; cbn [syscalls traced];
      rewrite H5, Hl4, <- app_assoc; eauto. }
  destruct (r2 <? 0); [apply grow; [assumption | apply cleans]|].
  apply (grow (fun w0 =>
                 let (r3, w') := munmap (k_munmap_nmem k) nmem size w0 in
                 ret (if r3 <? 0 then map_see_errno_munmap_nmem_failed
                      else map_ok) w')); [assumption|].
  intros w0. destruct (unmaps (k_munmap_nmem k) nmem size w0) as [l Hl].
  destruct (munmap (k_munmap_nmem k) nmem size w0). cbn [ret snd] in *.
  eauto.
Qed.

Lemma Move_trace_grows (k : kernel) (r : mem_range) (w : world) :
  syscalls (snd (MoveRegionToLargePages k r w)) <> syscalls w.
Proof.
  destruct (Move_enters_kernel k r w) as (e & l & H). rewrite H.
  intros Heq. apply (f_equal (@List.length syscall)) in Heq.
  rewrite length_app in Heq. cbn [List.length] in Heq. lia.
Qed.

(** ** Validated ranges *)

Lemma diagnosed_syscalls (r : mem_range) (w : world) :
  syscalls (diagnosed r w) = syscalls w.
Proof. reflexivity. Qed.

(** C8.  After [AlignRegionToPageBoundary] has rounded [from] up and [to]
    down, a range that [CheckMemRange] accepts has both bounds on multiples
    of the 2 MiB huge-page size, [from < to] and [to - from >= 2 MiB].
    [AlignMoveRegionToLargePages], the only caller of the remapper, runs
    it on no other range: a call that enters the kernel at all is the
    remapper run on the aligned range, and that range is validated; a
    rejected range ends the call with the status of the check. *)
Theorem aligned_checked_range_is_validated
    (k : kernel) (r : mem_range) (w : world) :
  is_ptr (from r) -> is_ptr (to r) ->
  let r' := AlignRegionToPageBoundary r in
  (CheckMemRange r' = map_ok -> validated r') /\
  (syscalls (snd (AlignMoveRegionToLargePages k r w)) <> syscalls w ->
   validated r' /\
   AlignMoveRegionToLargePages k r w =
   MoveRegionToLargePages k r' (diagnosed r w)) /\
  (CheckMemRange r' <> map_ok ->
   AlignMoveRegionToLargePages k r w = (CheckMemRange r', diagnosed r w)).
Proof.
  intros Hf Ht r'. subst r'. rewrite AlignMove_unfold.
  split; [|split].
  - apply aligned_check_validated; assumption.
  - destruct (Z.eqb_spec (CheckMemRange (AlignRegionToPageBoundary r)) map_ok)
      as [Hok|Hno].
    + intros _. split; [|reflexivity].
      apply aligned_check_validated; assumption.
    + cbn [snd]. rewrite diagnosed_syscalls. intros H. now destruct H.
  - intros Hno.
    destruct (Z.eqb_spec (CheckMemRange (AlignRegionToPageBoundary r)) map_ok);
      [contradiction|reflexivity].
Qed.

Lemma aligned_checked_range_is_validated_witness :
  validated (AlignRegionToPageBoundary {| from := 0x1fffff; to := 0x400001 |})
  /\ AlignMoveRegionToLargePages kernel_ok
       {| from := 0x1fffff; to := 0x400001 |} running =
     MoveRegionToLargePages kernel_ok text_range
       (diagnosed {| from := 0x1fffff; to := 0x400001 |} running).
Proof.
  apply (aligned_checked_range_is_validated kernel_ok
           {| from := 0x1fffff; to := 0x400001 |} running).
  - unfold is_ptr; rewrite two64_value; cbn [from to]; lia.
  - unfold is_ptr; rewrite two64_value; cbn [from to]; lia.
  - vm_compute. discriminate.
Defined.

(** C4, as amended.  A call of [MapStaticCodeRangeToLargePages] with
    [from == to] never reaches the remapper: no system call is made and the
    memory is untouched.  Its result is [map_region_too_small] when the
    common bound is a non-null multiple of 2 MiB and
    [map_invalid_region_address] otherwise, because the bounds are aligned
    (one up, one down) before they are checked. *)
Theorem zero_length_range_is_rejected (k : kernel) (a : Z) (w : world) :
  is_ptr a ->
  let res := MapStaticCodeRangeToLargePages k a a w in
  res = (if negb (a =? NULL) && (a mod HPS =? 0)
         then map_region_too_small
         else map_invalid_region_address,
         diagnosed {| from := a; to := a |} w) /\
  syscalls (snd res) = syscalls w /\
  memory (snd res) = memory w /\
  (forall r',
      syscalls (snd res)
      <> syscalls (snd (MoveRegionToLargePages k r'
                          (diagnosed {| from := a; to := a |} w)))).
Proof.
  intros Ha res. subst res. unfold MapStaticCodeRangeToLargePages.
  rewrite AlignMove_unfold.
  assert (Hc : CheckMemRange
                 (AlignRegionToPageBoundary {| from := a; to := a |}) =
               if negb (a =? NULL) && (a mod HPS =? 0)
               then map_region_too_small
               else map_invalid_region_address).
  { unfold CheckMemRange, AlignRegionToPageBoundary, NULL. cbn [from to].
    rewrite largepage_align_up_div, (largepage_align_down_div a Ha).
    pose proof (wrap64_ptr (a + HPS - 1)) as Hw.
    assert (Hwv : wrap64 (a + HPS - 1) = a + HPS - 1 \/
                  wrap64 (a + HPS - 1) = a + HPS - 1 - two64).
    { unfold wrap64, is_ptr in *. rewrite two64_value, HPS_value in *.
      change (2 ^ 21) with 2097152 in *. euclid. }
    unfold is_ptr in *. rewrite two64_value, HPS_value in *.
    change (2 ^ 21) with 2097152 in *.
    destruct (Z.eqb_spec a 0) as [E0|E0];
      destruct (Z.eqb_spec (a mod 2097152) 0) as [Em|Em]; cbn [negb andb].
    - subst a. reflexivity.
    - subst a. reflexivity.
    - assert (E1 : 2097152 * (wrap64 (a + 2097152 - 1) / 2097152) = a)
        by (destruct Hwv as [Hv|Hv]; rewrite Hv in *; euclid).
      assert (E2 : 2097152 * (a / 2097152) = a) by euclid.
      rewrite E1, E2.
      destruct (Z.eqb_spec a 0); [contradiction|]. cbn [orb].
      destruct (Z.gtb_spec a a); [lia|].
      rewrite Z.sub_diag. reflexivity.
    - destruct (Z.eqb_spec (2097152 * (wrap64 (a + 2097152 - 1) / 2097152))
                  0); [reflexivity|].
      destruct (Z.eqb_spec (2097152 * (a / 2097152)) 0); [reflexivity|].
      destruct (Z.gtb_spec (2097152 * (wrap64 (a + 2097152 - 1) / 2097152))
                  (2097152 * (a / 2097152))) as [Hg|Hg]; [reflexivity|].
      exfalso. destruct Hwv as [Hv|Hv]; rewrite Hv in *; euclid. }
  rewrite Hc.
  assert (Hno : forall s : map_status,
             (s = map_region_too_small \/ s = map_invalid_region_address) ->
             (s =? map_ok) = false).
  { intros s [-> | ->]; reflexivity. }
  rewrite Hno by (destruct (negb (a =? NULL) && (a mod HPS =? 0)); auto).
  cbn [fst snd]. rewrite diagnosed_syscalls.
  repeat split. intros r' H. symmetry in H.
  exact (Move_trace_grows k r' _ H).
Qed.

Lemma zero_length_range_is_rejected_witness :
  is_ptr 0x200000 /\
  MapStaticCodeRangeToLargePages kernel_ok 0x200000 0x200000 running
  = (map_region_too_small,
     diagnosed {| from := 0x200000; to := 0x200000 |} running).
Proof.
  assert (Hp : is_ptr 0x200000) by (unfold is_ptr; rewrite two64_value; lia).
  split; [exact Hp|].
  exact (proj1 (zero_length_range_is_rejected kernel_ok 0x200000 running Hp)).
Defined.

(** C4, as stated, fails: with both bounds at 3 MiB the aligned range is
    inverted (4 MiB, 2 MiB) and the call reports invalid bounds. *)
Lemma zero_length_range_not_always_too_small :
  fst (MapStaticCodeRangeToLargePages kernel_ok 0x300000 0x300000 running)
  = map_invalid_region_address /\
  fst (MapStaticCodeRangeToLargePages kernel_ok 0x300000 0x300000 running)
  <> map_region_too_small.
Proof. split; [reflexivity | discriminate]. Qed.

(** ** Running the remapper one call at a time *)

Lemma bind_run {A B} (c : M A) (f : A -> M B) (w w' : world) (a : A) :
  c w = (a, w') -> bind c f w = f a w'.
Proof. intros H. unfold bind. rewrite H. reflexivity. Qed.

Lemma mmap_fails (addr len prot flags : Z) (w : world) :
  mmap MAP_FAILED addr len prot flags w =
  (MAP_FAILED, traced (SysMmap addr len prot flags MAP_FAILED) (memory w) w).
Proof. reflexivity. Qed.

Lemma mmap_scratch (answer len prot : Z) (w : world) :
  answer <> MAP_FAILED ->
  mmap answer NULL len prot (Z.lor MAP_PRIVATE MAP_ANONYMOUS) w =
  (answer,
   traced (SysMmap NULL len prot (Z.lor MAP_PRIVATE MAP_ANONYMOUS) answer)
     (map_range answer len prot (memory w)) w).
Proof.
  intros H. apply Z.eqb_neq in H. unfold mmap.
  change (Z.testbit (Z.lor MAP_PRIVATE MAP_ANONYMOUS) 4) with false.
  cbv iota zeta. rewrite H. cbv iota. rewrite H. reflexivity.
Qed.

Lemma mmap_fixed (answer addr len prot : Z) (w : world) :
  answer <> MAP_FAILED -> addr <> MAP_FAILED ->
  mmap answer addr len prot
       (Z.lor (Z.lor MAP_PRIVATE MAP_ANONYMOUS) MAP_FIXED) w =
  (addr,
   traced (SysMmap addr len prot
             (Z.lor (Z.lor MAP_PRIVATE MAP_ANONYMOUS) MAP_FIXED) addr)
     (map_range addr len prot (memory w)) w).
Proof.
  intros H Ha. apply Z.eqb_neq in H, Ha. unfold mmap.
  change (Z.testbit (Z.lor (Z.lor MAP_PRIVATE MAP_ANONYMOUS) MAP_FIXED) 4)
    with true.
  cbv iota zeta. rewrite H. cbv iota. rewrite Ha. reflexivity.
Qed.

Lemma in_range_spec (p len a : Z) :
  reflect (p <= a < p + len) (in_range p len a).
Proof.
  unfold in_range.
  destruct (p <=? a) eqn:E1, (a <? p + len) eqn:E2; constructor;
    rewrite ?Z.leb_le, ?Z.leb_gt, ?Z.ltb_lt, ?Z.ltb_ge in *; lia.
Qed.

(** Runs the next call of a computation. *)
Ltac run_call :=
  erewrite bind_run by
    first [ apply mmap_fails
          | apply mmap_scratch; assumption
          | apply mmap_fixed; assumption
          | reflexivity ].

(** Decides a comparison of two status codes. *)
Ltac status_eqb :=
  match goal with
  | |- context [?a =? ?b] =>
      let v := eval vm_compute in (a =? b) in
      lazymatch v with
      | true => change (a =? b) with true
      | false => change (a =? b) with false
      end
  end.

(** Runs a computation whose kernel answers are known. *)
Ltac exec :=
  repeat first
    [ run_call
    | rewrite Z.eqb_refl
    | match goal with
      | H : ?a <> ?b |- context [?a =? ?b] =>
          rewrite (proj2 (Z.eqb_neq a b) H)
      end
    | progress cbn [memory syscalls stderr traced fst snd ret]
    | progress cbv beta iota
    | progress change (0 <? 0) with false
    | progress change (-1 <? 0) with true
    | status_eqb ].

(** Splits on the position of every address with respect to every range. *)
Ltac ranges :=
  repeat match goal with
         | |- context [in_range ?p ?l ?x] =>
             destruct (in_range_spec p l x); try (exfalso; lia)
         end.

(** Rewrites every address at which the memory is read to [a]. *)
Ltac same_address a :=
  repeat match goal with
         | |- context [memory ?w ?x] =>
             lazymatch x with
             | a => fail
             | _ => replace x with a by lia
             end
         end.

(** Evaluates a memory built by the remapper at the address [a]. *)
Ltac at_address a :=
  cbv [unmap_range protect_range copy_range advise_range map_range];
  ranges; same_address a.

(** Reads the original cell [Hc : memory w a = Some c], readable by [Hr],
    and decides the permissions of the cells built since. *)
Ltac read_cell Hc Hr :=
  rewrite ?Hc;
  cbn [writable readable c_prot c_byte c_huge option_map];
  rewrite ?Hr;
  repeat match goal with
         | |- context [Z.testbit ?p ?i] =>
             let v := eval vm_compute in (Z.testbit p i) in
             lazymatch v with
             | true => change (Z.testbit p i) with true
             | false => change (Z.testbit p i) with false
             end
         end;
  cbn [andb option_map c_byte c_prot].

Section Remap.

Variables (k : kernel) (r : mem_range) (w : world).

Hypothesis Hfrom : is_ptr (from r).
Hypothesis Hto : is_ptr (to r).
Hypothesis Hval : validated r.
Hypothesis Hcode : code_mapped (memory w) r.
Hypothesis Hfresh : fresh_scratch k (memory w) r.

Lemma validated_size : wrap64 (to r - from r) = to r - from r.
Proof.
  destruct Hval as (_ & _ & Hlt & _). unfold is_ptr in *.
  unfold wrap64. apply Z.mod_small. lia.
Qed.

Lemma validated_start : from r <> MAP_FAILED.
Proof.
  destruct Hval as (_ & _ & Hlt & _). unfold is_ptr, MAP_FAILED in *. lia.
Qed.

(** The scratch region, free before the call, cannot meet the code. *)
Lemma scratch_disjoint :
  k_mmap_nmem k <> MAP_FAILED ->
  k_mmap_nmem k + (to r - from r) <= from r \/ to r <= k_mmap_nmem k.
Proof.
  intros Hn. destruct Hval as (_ & _ & Hlt & _).
  destruct (Z_le_gt_dec (k_mmap_nmem k + (to r - from r)) (from r));
    [left; assumption|].
  destruct (Z_le_gt_dec (to r) (k_mmap_nmem k)); [right; assumption|].
  exfalso.
  destruct (Hcode (Z.max (k_mmap_nmem k) (from r))) as (c & Hc & _);
    [lia|].
  rewrite (Hfresh Hn (Z.max (k_mmap_nmem k) (from r))) in Hc by lia.
  discriminate.
Qed.

(** Splits on the answers of the kernel and runs the remapper. *)
Ltac remap_cases :=
  unfold MoveRegionToLargePages, clean_exit_nmem, clean_exit_tmem_nmem;
  rewrite validated_size;
  pose proof validated_start as start_ok;
  destruct (Z.eq_dec (k_mmap_nmem k) MAP_FAILED) as [En|En];
    [rewrite En | pose proof (scratch_disjoint En) as Hdis];
  (destruct (Z.eq_dec (k_mmap_tmem k) MAP_FAILED) as [Et|Et];
    [rewrite Et|]);
  destruct (k_madvise k), (k_mprotect k), (k_munmap_tmem k),
    (k_munmap_nmem k); exec.

(** C7.  When the remapper returns [map_ok], the bytes of the range are
    those it held before the call, the range is protected read+execute,
    and the scratch region is released. *)
Theorem remap_ok_preserves_code :
  fst (MoveRegionToLargePages k r w) = map_ok ->
  same_bytes (memory w) (memory (snd (MoveRegionToLargePages k r w))) r /\
  protected_as (Z.lor PROT_READ PROT_EXEC)
    (memory (snd (MoveRegionToLargePages k r w))) r /\
  unmapped (memory (snd (MoveRegionToLargePages k r w)))
    (k_mmap_nmem k) (to r - from r).
Proof.
  remap_cases; try discriminate.
  all: intros _; split; [|split]; intros a Ha.
  all: try (destruct (Hcode a) as (c & Hc & Hr & Hx); [lia|]).
  all: at_address a; read_cell Hc Hr.
  all: first [reflexivity | split; [reflexivity | discriminate]].
Qed.

(** C9.  When the four remap steps succeed and only the final release of
    the scratch region fails, the remapper returns
    [map_see_errno_munmap_nmem_failed], a status other than [map_ok],
    although the remap is fully applied: the range holds its original
    bytes, protected read+execute, at its original addresses. *)
Theorem release_failure_after_full_remap :
  k_mmap_nmem k <> MAP_FAILED ->
  k_mmap_tmem k <> MAP_FAILED ->
  k_madvise k = true ->
  k_mprotect k = true ->
  k_munmap_nmem k = false ->
  fst (MoveRegionToLargePages k r w) = map_see_errno_munmap_nmem_failed /\
  fst (MoveRegionToLargePages k r w) <> map_ok /\
  same_bytes (memory w) (memory (snd (MoveRegionToLargePages k r w))) r /\
  protected_as (Z.lor PROT_READ PROT_EXEC)
    (memory (snd (MoveRegionToLargePages k r w))) r.
Proof.
  intros Hn Ht Ha Hp Hu. revert Ha Hp Hu.
  remap_cases; try contradiction; try discriminate.
  all: intros _ _ _; split; [reflexivity|]; split; [discriminate|].
  all: split; intros a Ha.
  all: destruct (Hcode a) as (c & Hc & Hr & Hx); [lia|].
  all: at_address a; read_cell Hc Hr.
  all: first [reflexivity | split; [reflexivity | discriminate]].
Qed.

(** C1, as amended.  After a failed call, what an address of the range
    holds is decided by the status.
    - A failure that precedes the fixed-address mapping ([map_see_errno],
      [map_see_errno_mmap_tmem_failed],
      [map_see_errno_mmap_tmem_munmap_nmem_failed]) leaves the original
      mapping as it was.
    - A failure of [mprotect] whose rollback could not release the
      fixed-address mapping, and the failure of the final release of the
      scratch region, leave the newly built fixed-address mapping with
      the original bytes, executable.
    - A failure of [madvise] whose rollback could not release the
      fixed-address mapping leaves that mapping executable but
      zero-filled: the code is not there.
    - The four statuses that report a successful rollback release of the
      fixed-address mapping leave the address unmapped.
    There is no other failure status. *)
Theorem failed_remap_outcome (a : Z) :
  let s := fst (MoveRegionToLargePages k r w) in
  let m' := memory (snd (MoveRegionToLargePages k r w)) in
  s <> map_ok ->
  from r <= a < to r ->
  exists c,
    memory w a = Some c /\ readable c = true /\ executable c = true /\
    (failed_before_replacement s = true -> m' a = Some c) /\
    (left_writable_copy s = true ->
     m' a = Some {| c_prot := Z.lor (Z.lor PROT_READ PROT_WRITE) PROT_EXEC;
                    c_byte := c_byte c; c_huge := true |}) /\
    (s = map_see_errno_munmap_nmem_failed ->
     m' a = Some {| c_prot := Z.lor PROT_READ PROT_EXEC;
                    c_byte := c_byte c; c_huge := true |}) /\
    (left_zero_filled s = true ->
     m' a = Some {| c_prot := Z.lor (Z.lor PROT_READ PROT_WRITE) PROT_EXEC;
                    c_byte := x00; c_huge := false |}) /\
    (rollback_released_target s = true -> m' a = None) /\
    failed_before_replacement s || left_writable_copy s
    || (s =? map_see_errno_munmap_nmem_failed)
    || left_zero_filled s || rollback_released_target s = true.
Proof.
  cbv zeta.
  remap_cases; try (intros H; now destruct H).
  all: intros _ Ha.
  all: destruct (Hcode a Ha) as (c & Hc & Hr & Hx).
  all: exists c.
  all: split; [exact Hc|]; split; [exact Hr|]; split; [exact Hx|].
  all: repeat (split;
               [intros Hb; try discriminate Hb; clear Hb;
                at_address a; read_cell Hc Hr; reflexivity|]).
  all: reflexivity.
Qed.

End Remap.

(** ** The example process *)

Lemma text_range_ptr : is_ptr (from text_range) /\ is_ptr (to text_range).
Proof. unfold is_ptr. rewrite two64_value. cbn [from to text_range]. lia. Qed.

Lemma text_range_validated : validated text_range.
Proof.
  unfold validated; cbn [from to text_range].
  repeat split; try reflexivity; rewrite HPS_value; lia.
Qed.

Lemma running_code_mapped : code_mapped (memory running) text_range.
Proof.
  intros a Ha. cbn [from to text_range] in Ha.
  cbn [memory running]. unfold code_memory.
  destruct (in_range_spec 0x200000 0x200000 a); [|lia].
  eexists. repeat split; reflexivity.
Qed.

Lemma running_scratch_fresh (k : kernel) :
  k_mmap_nmem k = 0x40000000 ->
  fresh_scratch k (memory running) text_range.
Proof.
  intros Hk _ a Ha. rewrite Hk in Ha. cbn [from to text_range] in Ha.
  cbn [memory running]. unfold code_memory.
  destruct (in_range_spec 0x200000 0x200000 a); [lia|reflexivity].
Qed.

Lemma remap_ok_preserves_code_witness :
  fst (MoveRegionToLargePages kernel_ok text_range running) = map_ok /\
  same_bytes (memory running)
    (memory (snd (MoveRegionToLargePages kernel_ok text_range running)))
    text_range /\
  protected_as (Z.lor PROT_READ PROT_EXEC)
    (memory (snd (MoveRegionToLargePages kernel_ok text_range running)))
    text_range /\
  unmapped
    (memory (snd (MoveRegionToLargePages kernel_ok text_range running)))
    (k_mmap_nmem kernel_ok) (to text_range - from text_range).
Proof.
  split; [reflexivity|].
  apply (remap_ok_preserves_code kernel_ok text_range running).
  - apply text_range_ptr.
  - apply text_range_ptr.
  - apply text_range_validated.
  - apply running_code_mapped.
  - apply running_scratch_fresh. reflexivity.
  - reflexivity.
Defined.

Lemma release_failure_after_full_remap_witness :
  fst (MoveRegionToLargePages kernel_release_fails text_range running)
  = map_see_errno_munmap_nmem_failed /\
  fst (MoveRegionToLargePages kernel_release_fails text_range running)
  <> map_ok /\
  same_bytes (memory running)
    (memory
       (snd (MoveRegionToLargePages kernel_release_fails text_range running)))
    text_range /\
  protected_as (Z.lor PROT_READ PROT_EXEC)
    (memory
       (snd (MoveRegionToLargePages kernel_release_fails text_range running)))
    text_range.
Proof.
  apply (release_failure_after_full_remap kernel_release_fails text_range
           running).
  - apply text_range_ptr.
  - apply text_range_ptr.
  - apply text_range_validated.
  - apply running_code_mapped.
  - apply running_scratch_fresh. reflexivity.
  - vm_compute. discriminate.
  - vm_compute. discriminate.
  - reflexivity.
  - reflexivity.
  - reflexivity.
Defined.

Lemma failed_remap_outcome_witness :
  fst (MoveRegionToLargePages kernel_madvise_unmap_fail text_range running)
  = map_see_errno_madvise_tmem_munmap_tmem_failed /\
  memory
    (snd (MoveRegionToLargePages kernel_madvise_unmap_fail text_range
            running)) 0x200000
  = Some {| c_prot := Z.lor (Z.lor PROT_READ PROT_WRITE) PROT_EXEC;
            c_byte := x00; c_huge := false |}.
Proof.
  split; [reflexivity|].
  destruct (failed_remap_outcome kernel_madvise_unmap_fail text_range
              running (proj1 text_range_ptr) (proj2 text_range_ptr)
              text_range_validated running_code_mapped
              (running_scratch_fresh kernel_madvise_unmap_fail eq_refl)
              0x200000)
    as (c & _ & _ & _ & _ & _ & _ & Hzero & _).
  - vm_compute. discriminate.
  - cbn [from to text_range]. lia.
  - apply Hzero. reflexivity.
Defined.

(** C1, as stated, fails, in two ways.  The code of the example process is
    mapped and executable and the scratch region is free.
    - [madvise] fails and the rollback releases the fixed-address mapping:
      the call returns [map_see_errno_madvise_tmem_failed] and the first
      address of the range is unmapped.
    - [madvise] fails and the rollback cannot release the fixed-address
      mapping: the call returns
      [map_see_errno_madvise_tmem_munmap_tmem_failed] and the first
      address of the range, which held the byte [0x90], is mapped
      executable with the byte [0x00] of a fresh anonymous mapping. *)
Lemma failed_remap_may_unmap_code :
  validated text_range /\
  code_mapped (memory running) text_range /\
  fresh_scratch kernel_madvise_fails (memory running) text_range /\
  fst (MoveRegionToLargePages kernel_madvise_fails text_range running)
  = map_see_errno_madvise_tmem_failed /\
  memory
    (snd (MoveRegionToLargePages kernel_madvise_fails text_range running))
    0x200000 = None /\
  ~ code_mapped
      (memory
         (snd (MoveRegionToLargePages kernel_madvise_fails text_range
                 running)))
      text_range /\
  fresh_scratch kernel_madvise_unmap_fail (memory running) text_range /\
  fst (MoveRegionToLargePages kernel_madvise_unmap_fail text_range running)
  = map_see_errno_madvise_tmem_munmap_tmem_failed /\
  option_map c_byte (memory running 0x200000) = Some x90 /\
  memory
    (snd (MoveRegionToLargePages kernel_madvise_unmap_fail text_range
            running)) 0x200000
  = Some {| c_prot := Z.lor (Z.lor PROT_READ PROT_WRITE) PROT_EXEC;
            c_byte := x00; c_huge := false |} /\
  ~ same_bytes (memory running)
      (memory
         (snd (MoveRegionToLargePages kernel_madvise_unmap_fail text_range
                 running)))
      text_range.
Proof.
  split; [apply text_range_validated|].
  split; [apply running_code_mapped|].
  split; [apply running_scratch_fresh; reflexivity|].
  split; [reflexivity|].
  split; [reflexivity|].
  split.
  { intros H. destruct (H 0x200000) as (c & Hc & _).
    - cbn [from to text_range]. lia.
    - discriminate Hc. }
  split; [apply running_scratch_fresh; reflexivity|].
  split; [reflexivity|].
  split; [reflexivity|].
  split; [reflexivity|].
  intros H. destruct (H 0x200000) as [Hb _].
  - cbn [from to text_range]. lia.
  - discriminate Hb.
Qed.

(** ** The capability probe *)

Lemma append_empty_r (s : string) : s ++ "" = s.
Proof. induction s as [|c s IH]; cbn; [reflexivity | now rewrite IH]. Qed.

Lemma append_cons_assoc (s : string) (c : ascii) (t : string) :
  (s ++ String c "") ++ t = s ++ String c t.
Proof. induction s as [|d s IH]; cbn; [reflexivity | now rewrite IH]. Qed.

Lemma tokens_from_scan_word (s : string) :
  forall cur w rest,
    scan_word s = (w, rest) ->
    tokens_from cur s =
    match cur ++ w with
    | EmptyString => tokens rest
    | t => t :: tokens rest
    end.
Proof.
  induction s as [|c s IH]; intros cur w rest Hs; cbn in Hs.
  - injection Hs as <- <-. rewrite append_empty_r. cbn.
    destruct cur; reflexivity.
  - cbn [tokens_from]. destruct (isspace c) eqn:Ec.
    + injection Hs as <- <-. rewrite append_empty_r.
      unfold tokens. cbn [tokens_from]. rewrite Ec. 
      destruct cur; reflexivity.
    + destruct (scan_word s) as [w' rest'] eqn:Es.
      injection Hs as <- <-.
      rewrite (IH _ _ _ eq_refl), append_cons_assoc. reflexivity.
Qed.

Lemma tokens_skip_space (s : string) : tokens (skip_space s) = tokens s.
Proof.
  unfold tokens. induction s as [|c s IH]; [reflexivity|].
  cbn [skip_space tokens_from]. destruct (isspace c) eqn:Ec.
  - exact IH.
  - cbn [tokens_from]. rewrite Ec. reflexivity.
Qed.

Lemma skip_space_head (s : string) (c : ascii) (s' : string) :
  skip_space s = String c s' -> isspace c = false.
Proof.
  induction s as [|d s IH]; cbn; [discriminate|].
  destruct (isspace d) eqn:Ed; [exact IH|].
  intros H. injection H as <- <-. exact Ed.
Qed.

(** One conversion reads the first token and leaves the rest. *)
Lemma conv_s_tokens (s : string) :
  match conv_s s with
  | None => tokens s = []
  | Some (w, rest) => tokens s = w :: tokens rest
  end.
Proof.
  unfold conv_s. rewrite <- (tokens_skip_space s).
  destruct (skip_space s) as [|c s'] eqn:Es; [reflexivity|].
  pose proof (skip_space_head _ _ _ Es) as Hc.
  destruct (scan_word (String c s')) as [w rest] eqn:Ew.
  unfold tokens at 1. rewrite (tokens_from_scan_word _ _ _ _ Ew).
  cbn [append]. cbn in Ew. rewrite Hc in Ew.
  destruct (scan_word s'). injection Ew as <- <-. reflexivity.
Qed.

(** [fscanf] in terms of the tokens of its input. *)
Lemma fscanf_sss_tokens (input : string) :
  fscanf_sss input "" "" "" =
  match tokens input with
  | [] => Some (EOF, ("", "", ""))
  | [t1] => if fits16 t1 then Some (1, (t1, "", "")) else None
  | [t1; t2] =>
      if fits16 t1 && fits16 t2 then Some (2, (t1, t2, "")) else None
  | t1 :: t2 :: t3 :: _ =>
      if fits16 t1 && fits16 t2 && fits16 t3
      then Some (3, (t1, t2, t3)) else None
  end.
Proof.
  unfold fscanf_sss.
  pose proof (conv_s_tokens input) as H1.
  destruct (conv_s input) as [[w1 rest1]|]; rewrite H1; [|reflexivity].
  destruct (fits16 w1); cbn [negb andb];
    [|destruct (tokens rest1) as [|? [|? ?]]; reflexivity].
  pose proof (conv_s_tokens rest1) as H2.
  destruct (conv_s rest1) as [[w2 rest2]|]; rewrite H2; [|reflexivity].
  destruct (fits16 w2); cbn [negb andb];
    [|destruct (tokens rest2); reflexivity].
  pose proof (conv_s_tokens rest2) as H3.
  destruct (conv_s rest2) as [[w3 rest3]|]; rewrite H3; [|reflexivity].
  destruct (fits16 w3); reflexivity.
Qed.

Lemma c_token_c_str (t : string) : c_token t = true -> c_str t = t.
Proof.
  unfold c_token. intros H. apply andb_true_iff in H as [_ H].
  now apply String.eqb_eq.
Qed.

Lemma c_token_fits (t : string) : c_token t = true -> fits16 t = true.
Proof. unfold c_token. intros H. now apply andb_true_iff in H as [H _]. Qed.

Lemma strcmp_c_token (t lit : string) :
  c_token t = true -> c_str lit = lit -> t <> lit -> strcmp_eq t lit = false.
Proof.
  intros Ht Hl Hne. unfold strcmp_eq. rewrite (c_token_c_str t Ht), Hl.
  now apply String.eqb_neq.
Qed.

(** C5, as amended.  On a supported platform, a capability file with fewer
    than three white-space-separated tokens is reported as
    [map_malformed_thp_file]; a file with three tokens or more is not: the
    tokens after the third are never read and the status is [map_ok].
    (Each token read must fit the 16-byte buffer it is read into.) *)
Theorem malformed_iff_fewer_than_three_tokens
    (content : string) (result : bool) :
  Forall (fun t => fits16 t = true) (firstn 3 (tokens content)) ->
  ((List.length (tokens content) < 3)%nat ->
   IsLargePagesEnabled true (Some content) result
   = Some (map_malformed_thp_file, false)) /\
  ((3 <= List.length (tokens content))%nat ->
   exists enabled,
     IsLargePagesEnabled true (Some content) result
     = Some (map_ok, enabled)).
Proof.
  intros Hfit.
  unfold IsLargePagesEnabled, IsTransparentHugePagesEnabled. cbn [negb].
  rewrite fscanf_sss_tokens.
  destruct (tokens content) as [|t1 [|t2 [|t3 rest]]]; cbn [firstn] in Hfit.
  - split; [reflexivity | cbn; lia].
  - inversion_clear Hfit as [|? ? H1 _]. rewrite H1.
    split; [reflexivity | cbn; lia].
  - inversion_clear Hfit as [|? ? H1 Hfit']. rewrite H1.
    inversion_clear Hfit' as [|? ? H2 _]. rewrite H2.
    split; [reflexivity | cbn; lia].
  - inversion_clear Hfit as [|? ? H1 Hfit']. rewrite H1.
    inversion_clear Hfit' as [|? ? H2 Hfit'']. rewrite H2.
    inversion_clear Hfit'' as [|? ? H3 _]. rewrite H3.
    split; [cbn; lia|]. intros _. cbn [andb negb Z.eqb Pos.eqb].
    destruct (strcmp_eq t1 "[always]"); [eauto|].
    destruct (strcmp_eq t2 "[madvise]"); [eauto|].
    destruct (strcmp_eq t3 "[never]"); eauto.
Qed.

Lemma malformed_iff_fewer_than_three_tokens_witness :
  IsLargePagesEnabled true (Some "always madvise") true
  = Some (map_malformed_thp_file, false) /\
  exists enabled,
    IsLargePagesEnabled true (Some thp_four_tokens) true
    = Some (map_ok, enabled).
Proof.
  split.
  - apply (malformed_iff_fewer_than_three_tokens "always madvise" true).
    + vm_compute. repeat constructor.
    + vm_compute. lia.
  - apply (malformed_iff_fewer_than_three_tokens thp_four_tokens true).
    + vm_compute. repeat constructor.
    + vm_compute. lia.
Defined.

(** C5, as stated, fails: a file with four tokens is not reported as
    malformed. *)
Lemma four_tokens_are_not_malformed :
  tokens thp_four_tokens = ["always"; "madvise"; "[never]"; "extra"] /\
  IsLargePagesEnabled true (Some thp_four_tokens) false
  = Some (map_ok, false) /\
  IsLargePagesEnabled true (Some thp_four_tokens) false
  <> Some (map_malformed_thp_file, false).
Proof. split; [reflexivity|]. split; [reflexivity | discriminate]. Qed.

(** C6.  On a supported platform, for a capability file that holds the
    policy line with one mode bracket-marked, the probe returns [map_ok],
    with enabled=true when the marked mode is "always" or "madvise" and
    enabled=false when it is "never". *)
Theorem policy_line_decides_enabled
    (content : string) (mode : thp_mode) (result : bool) :
  tokens content = policy_tokens mode ->
  IsLargePagesEnabled true (Some content) result
  = Some (map_ok, mode_enabled mode).
Proof.
  intros Htok.
  unfold IsLargePagesEnabled, IsTransparentHugePagesEnabled. cbn [negb].
  rewrite fscanf_sss_tokens, Htok. destruct mode; reflexivity.
Qed.

(** The two files the claim names: [[always] madvise never] and
    [always madvise [never]]. *)
Lemma policy_line_decides_enabled_witness :
  IsLargePagesEnabled true (Some thp_always) false = Some (map_ok, true) /\
  IsLargePagesEnabled true (Some thp_never) true = Some (map_ok, false).
Proof.
  split.
  - apply (policy_line_decides_enabled thp_always Always false). reflexivity.
  - apply (policy_line_decides_enabled thp_never Never true). reflexivity.
Defined.

(** C10.  On a supported platform, when the capability file holds exactly
    three tokens of which the first is not "[always]", the second not
    "[madvise]" and the third not "[never]", the probe returns [map_ok]
    with enabled=false, not a malformed-file error.  (The tokens are C
    strings that fit their 16-byte buffers.) *)
Theorem unmarked_triple_reads_as_disabled
    (content t1 t2 t3 : string) (result : bool) :
  tokens content = [t1; t2; t3] ->
  c_token t1 = true -> c_token t2 = true -> fits16 t3 = true ->
  t1 <> "[always]" -> t2 <> "[madvise]" -> t3 <> "[never]" ->
  IsLargePagesEnabled true (Some content) result = Some (map_ok, false).
Proof.
  intros Htok H1 H2 H3 N1 N2 _.
  unfold IsLargePagesEnabled, IsTransparentHugePagesEnabled. cbn [negb].
  rewrite fscanf_sss_tokens, Htok.
  rewrite (c_token_fits t1 H1), (c_token_fits t2 H2), H3.
  cbn [andb negb Z.eqb Pos.eqb].
  rewrite (strcmp_c_token t1 "[always]" H1 eq_refl N1).
  rewrite (strcmp_c_token t2 "[madvise]" H2 eq_refl N2).
  destruct (strcmp_eq t3 "[never]"); reflexivity.
Qed.

Lemma unmarked_triple_reads_as_disabled_witness :
  tokens thp_garbage = ["foo"; "[never]"; "[always]"] /\
  IsLargePagesEnabled true (Some thp_garbage) true = Some (map_ok, false).
Proof.
  split; [reflexivity|].
  apply (unmarked_triple_reads_as_disabled thp_garbage
           "foo" "[never]" "[always]" true);
    first [reflexivity | discriminate].
Defined.

(** ** Locating the code region *)

Section LoaderFacts.

Variable regex_t : Type.
Variable regcomp : string -> option regex_t.
Variable regexec : regex_t -> string -> bool.
Variable fs : string -> exe_file.

(** The callback never returns [0], the value on which [dl_iterate_phdr]
    goes on to the next object. *)
Lemma FindMapping_nonzero (hdr : dl_phdr_info) (fp : FindParams regex_t) :
  fst (FindMapping regex_t regexec fs hdr fp) <> 0.
Proof.
  unfold FindMapping.
  repeat match goal with
         | |- context [if ?b then _ else _] => destruct b
         | |- context [match ?o with Some _ => _ | None => _ end] =>
             destruct o
         end; cbn [fst]; discriminate.
Qed.

(** So the first loaded object alone decides the enumeration. *)
Lemma first_object_decides
    (hdr : dl_phdr_info) (rest : list dl_phdr_info)
    (fp : FindParams regex_t) :
  dl_iterate_phdr (FindMapping regex_t regexec fs) (hdr :: rest) fp
  = FindMapping regex_t regexec fs hdr fp.
Proof.
  cbn [dl_iterate_phdr].
  pose proof (FindMapping_nonzero hdr fp) as H.
  destruct (FindMapping regex_t regexec fs hdr fp) as [s fp'].
  cbn [fst] in H. apply Z.eqb_neq in H. rewrite H. reflexivity.
Qed.

End LoaderFacts.

(** C2, on the code.  The [munmap] of the scratch mapping of the main
    executable fails: [FindMapping] returns the status
    [map_failed_to_unmap_exe_see_errno] without the sign that marks an
    error, and [FindTextRegion] returns [map_ok] with the region found.
    When [close] fails instead, the negated status reaches the caller. *)
Lemma unmap_failure_is_reported_as_ok :
  fst (FindMapping string literal_regexec fs_unmap_fails main_exe no_pattern)
  = map_failed_to_unmap_exe_see_errno /\
  FindTextRegion string literal_regcomp literal_regexec fs_unmap_fails
    loaded None {| from := 0; to := 0 |}
  = (map_ok, {| from := 0x401000; to := 0xa01000 |}) /\
  fst (FindMapping string literal_regexec fs_close_fails main_exe no_pattern)
  = - map_failed_to_close_exe_see_errno /\
  FindTextRegion string literal_regcomp literal_regexec fs_close_fails
    loaded None {| from := 0; to := 0 |}
  = (map_failed_to_close_exe_see_errno, {| from := 0; to := 0 |}).
Proof. repeat split. Qed.

(** C3, on the code.  The pattern [libbar] matches the path name of no
    loaded object, yet the main executable, whose name is empty, is taken
    as the match: its [.text] region is found, aligned, validated and
    remapped, and the call returns [map_ok]. *)
Lemma unmatched_pattern_remaps_main_executable :
  literal_regexec "libbar" (dlpi_name main_exe) = false /\
  literal_regexec "libbar" (dlpi_name libfoo) = false /\
  FindTextRegion string literal_regcomp literal_regexec fs_ok loaded
    (Some "libbar") {| from := 0; to := 0 |}
  = (map_ok, {| from := 0x401000; to := 0xa01000 |}) /\
  fst (MapDSOToLargePages string literal_regcomp literal_regexec fs_ok
         loaded kernel_ok (Some "libbar") exe_running)
  = map_ok /\
  fst (MapDSOToLargePages string literal_regcomp literal_regexec fs_ok
         loaded kernel_ok (Some "libbar") exe_running)
  <> map_region_not_found /\
  syscalls
    (snd (MapDSOToLargePages string literal_regcomp literal_regexec fs_ok
            loaded kernel_ok (Some "libbar") exe_running))
  = [ SysMmap 0 0x400000 3 34 0x40000000;
      SysMmap 0x600000 0x400000 7 50 0x600000;
      SysMadvise 0x600000 0x400000 14 0;
      SysMprotect 0x600000 0x400000 5 0;
      SysMunmap 0x40000000 0x400000 0 ].
Proof.
  split; [reflexivity|]. split; [reflexivity|]. split; [reflexivity|].
  split; [reflexivity|]. split; [discriminate | reflexivity].
Qed.

(** * Further properties of the code *)

(** ** Alignment and validation *)

(** X1.  [largepage_align_down] returns the greatest multiple of the huge-page
    size that does not exceed the address. *)
Theorem align_down_greatest_multiple (a : Z) :
  is_ptr a ->
  largepage_align_down a mod HPS = 0 /\
  largepage_align_down a <= a < largepage_align_down a + HPS.
Proof.
  intros Ha. rewrite (largepage_align_down_div a Ha).
  unfold is_ptr in Ha. rewrite two64_value, HPS_value in *.
  change (2 ^ 21) with 2097152 in *. split; euclid.
Qed.

Lemma align_down_greatest_multiple_witness :
  largepage_align_down 0x3fffff mod HPS = 0 /\
  largepage_align_down 0x3fffff <= 0x3fffff
  < largepage_align_down 0x3fffff + HPS.
Proof.
  apply (align_down_greatest_multiple 0x3fffff).
  unfold is_ptr; rewrite two64_value; lia.
Defined.

(** X2.  [largepage_align_up] returns the least multiple of the huge-page size
    that is not below the address, as long as one fits in 64 bits; for an
    address inside the last huge page of the address space the sum wraps
    and the result is [NULL]. *)
Theorem align_up_least_multiple_or_null (a : Z) :
  is_ptr a ->
  largepage_align_up a mod HPS = 0 /\
  (a <= two64 - HPS -> a <= largepage_align_up a < a + HPS) /\
  (two64 - HPS < a -> largepage_align_up a = NULL).
Proof.
  intros Ha. rewrite largepage_align_up_div.
  pose proof (wrap64_ptr (a + HPS - 1)) as Hw.
  assert (Hwv : wrap64 (a + HPS - 1) = a + HPS - 1 \/
                wrap64 (a + HPS - 1) = a + HPS - 1 - two64).
  { unfold wrap64, is_ptr in *. rewrite two64_value, HPS_value in *.
    change (2 ^ 21) with 2097152 in *. euclid. }
  unfold is_ptr, NULL in *. rewrite two64_value, HPS_value in *.
  change (2 ^ 21) with 2097152 in *.
  split; [|split]; intros;
    destruct Hwv as [Hv|Hv]; rewrite Hv in *; euclid.
Qed.

Lemma align_up_least_multiple_or_null_witness :
  largepage_align_up 0x200001 = 0x400000 /\
  largepage_align_up (two64 - 1) = NULL.
Proof.
  split; [reflexivity|].
  apply (align_up_least_multiple_or_null (two64 - 1)).
  - unfold is_ptr; rewrite two64_value; lia.
  - rewrite two64_value, HPS_value. lia.
Defined.

(** X3.  Aligning twice is aligning once: an aligned range is left as it is. *)
Theorem AlignRegionToPageBoundary_idempotent (r : mem_range) :
  is_ptr (from r) -> is_ptr (to r) ->
  AlignRegionToPageBoundary (AlignRegionToPageBoundary r)
  = AlignRegionToPageBoundary r.
Proof.
  intros Hf Ht. destruct (aligned_is_ptr r Hf Ht) as [Hf' Ht'].
  unfold AlignRegionToPageBoundary in *. cbn [from to] in *.
  f_equal.
  - set (x := largepage_align_up (from r)) in *.
    assert (Hx : x = HPS * (wrap64 (from r + HPS - 1) / HPS))
      by apply largepage_align_up_div.
    rewrite largepage_align_up_div.
    pose proof (wrap64_ptr (x + HPS - 1)) as Hw.
    assert (Hwv : wrap64 (x + HPS - 1) = x + HPS - 1 \/
                  wrap64 (x + HPS - 1) = x + HPS - 1 - two64).
    { unfold wrap64, is_ptr in *. rewrite two64_value, HPS_value in *.
      change (2 ^ 21) with 2097152 in *. euclid. }
    set (q := wrap64 (from r + HPS - 1) / HPS) in *.
    unfold is_ptr in *. rewrite two64_value, HPS_value in *.
    change (2 ^ 21) with 2097152 in *.
    destruct Hwv as [Hv|Hv]; rewrite Hv in *; euclid.
  - set (y := largepage_align_down (to r)) in *.
    assert (Hy : y = HPS * (to r / HPS))
      by (apply largepage_align_down_div; assumption).
    rewrite (largepage_align_down_div y Ht').
    set (q := to r / HPS) in *.
    rewrite HPS_value in *. change (2 ^ 21) with 2097152 in *. euclid.
Qed.

Lemma AlignRegionToPageBoundary_idempotent_witness :
  AlignRegionToPageBoundary
    (AlignRegionToPageBoundary {| from := 0x1fffff; to := 0x400001 |})
  = AlignRegionToPageBoundary {| from := 0x1fffff; to := 0x400001 |}.
Proof.
  apply (AlignRegionToPageBoundary_idempotent
           {| from := 0x1fffff; to := 0x400001 |});
    unfold is_ptr; rewrite two64_value; cbn [from to]; lia.
Defined.

Lemma CheckMemRange_values (r : mem_range) :
  CheckMemRange r = map_invalid_region_address \/
  CheckMemRange r = map_region_too_small \/
  CheckMemRange r = map_ok.
Proof.
  unfold CheckMemRange.
  destruct ((from r =? NULL) || (to r =? NULL) || (from r >? to r));
    [auto|].
  destruct (signed64 (to r - from r) <? HPS); auto.
Qed.

(** X4.  [CheckMemRange] accepts exactly the ranges with two non-null bounds
    whose length is at least the huge-page size and below [2^63]: a longer
    range has a negative [ptrdiff_t] length and is reported too small. *)
Theorem CheckMemRange_accepts (r : mem_range) :
  is_ptr (from r) -> is_ptr (to r) ->
  (CheckMemRange r = map_ok <->
   from r <> NULL /\ to r <> NULL /\ HPS <= to r - from r < 2 ^ 63) /\
  (CheckMemRange r = map_invalid_region_address <->
   from r = NULL \/ to r = NULL \/ to r < from r).
Proof.
  intros [Hf0 Hf1] [Ht0 Ht1]. unfold CheckMemRange, NULL.
  destruct (Z.eqb_spec (from r) 0) as [E1|E1]; cbn [orb].
  { split; split; try discriminate; try tauto. }
  destruct (Z.eqb_spec (to r) 0) as [E2|E2]; cbn [orb].
  { split; split; try discriminate; try tauto. }
  destruct (Z.gtb_spec (from r) (to r)) as [E3|E3].
  { split; split; try discriminate; try tauto. intros (_ & _ & H).
    rewrite HPS_value in H. lia. }
  destruct (Z_lt_le_dec (to r - from r) (2 ^ 63)) as [Hd|Hd].
  - rewrite signed64_small by lia.
    destruct (Z.ltb_spec (to r - from r) HPS); split; split;
      try discriminate; try tauto; try lia.
  - rewrite signed64_large by lia.
    destruct (Z.ltb_spec (to r - from r - two64) HPS) as [H|H];
      [|rewrite two64_value, HPS_value in *; lia].
    split; split; try discriminate; try tauto; try lia.
Qed.

Lemma CheckMemRange_accepts_witness :
  CheckMemRange text_range = map_ok /\
  CheckMemRange {| from := 0x200000; to := two64 - 0x200000 |}
  = map_region_too_small.
Proof.
  split.
  - apply (CheckMemRange_accepts text_range).
    + apply text_range_ptr.
    + apply text_range_ptr.
    + unfold NULL; cbn [from to text_range]; rewrite HPS_value; lia.
  - reflexivity.
Defined.

(** The aligned range that passes the check lies inside the given one. *)
Lemma aligned_check_within (r : mem_range) :
  is_ptr (from r) -> is_ptr (to r) ->
  CheckMemRange (AlignRegionToPageBoundary r) = map_ok ->
  from r <= from (AlignRegionToPageBoundary r) /\
  to (AlignRegionToPageBoundary r) <= to r.
Proof.
  intros Hf Ht Hok.
  destruct (aligned_is_ptr r Hf Ht) as [Hf' Ht'].
  destruct (CheckMemRange_ok _ Hf' Ht' Hok) as [Hnz _].
  cbn [AlignRegionToPageBoundary from to] in *.
  rewrite largepage_align_up_div in *.
  rewrite (largepage_align_down_div (to r) Ht) in *.
  pose proof (wrap64_ptr (from r + HPS - 1)) as Hw.
  assert (Hwv : wrap64 (from r + HPS - 1) = from r + HPS - 1 \/
                wrap64 (from r + HPS - 1) = from r + HPS - 1 - two64).
  { unfold wrap64, is_ptr in *. rewrite two64_value, HPS_value in *.
    change (2 ^ 21) with 2097152 in *. euclid. }
  unfold is_ptr in *. rewrite two64_value, HPS_value in *.
  change (2 ^ 21) with 2097152 in *.
  destruct Hwv as [Hv|Hv]; rewrite Hv in *; split; euclid.
Qed.

(** X5.  The remapper only ever runs on a part of the range it was given: when
    [AlignMoveRegionToLargePages] enters the kernel, the range it remaps
    is validated and lies within [from r .. to r]. *)
Theorem remapped_range_within_given (k : kernel) (r : mem_range) (w : world) :
  is_ptr (from r) -> is_ptr (to r) ->
  syscalls (snd (AlignMoveRegionToLargePages k r w)) <> syscalls w ->
  AlignMoveRegionToLargePages k r w
  = MoveRegionToLargePages k (AlignRegionToPageBoundary r) (diagnosed r w) /\
  from r <= from (AlignRegionToPageBoundary r) /\
  to (AlignRegionToPageBoundary r) <= to r.
Proof.
  intros Hf Ht. rewrite AlignMove_unfold.
  destruct (Z.eqb_spec (CheckMemRange (AlignRegionToPageBoundary r)) map_ok)
    as [Hok|Hno].
  - intros _. split; [reflexivity|]. now apply aligned_check_within.
  - cbn [snd]. rewrite diagnosed_syscalls. intros H. now destruct H.
Qed.

Lemma remapped_range_within_given_witness :
  0x1fffff <= from (AlignRegionToPageBoundary
                      {| from := 0x1fffff; to := 0x400001 |}) /\
  to (AlignRegionToPageBoundary {| from := 0x1fffff; to := 0x400001 |})
  <= 0x400001.
Proof.
  apply (remapped_range_within_given kernel_ok
           {| from := 0x1fffff; to := 0x400001 |} running).
  - unfold is_ptr; rewrite two64_value; cbn [from to]; lia.
  - unfold is_ptr; rewrite two64_value; cbn [from to]; lia.
  - vm_compute. discriminate.
Defined.

(** X6.  A range shorter than one huge page is never remapped: the call ends
    with [map_region_too_small] or [map_invalid_region_address], having
    written its two diagnostics and nothing else. *)
Theorem short_range_is_rejected (k : kernel) (r : mem_range) (w : world) :
  is_ptr (from r) -> is_ptr (to r) ->
  to r - from r < HPS ->
  (fst (AlignMoveRegionToLargePages k r w) = map_region_too_small \/
   fst (AlignMoveRegionToLargePages k r w) = map_invalid_region_address) /\
  snd (AlignMoveRegionToLargePages k r w) = diagnosed r w.
Proof.
  intros Hf Ht Hshort. rewrite AlignMove_unfold.
  destruct (Z.eqb_spec (CheckMemRange (AlignRegionToPageBoundary r)) map_ok)
    as [Hok|Hno].
  - exfalso.
    destruct (aligned_is_ptr r Hf Ht) as [Hf' Ht'].
    destruct (CheckMemRange_ok _ Hf' Ht' Hok) as [_ Hlen].
    destruct (aligned_check_within r Hf Ht Hok). lia.
  - cbn [fst snd]. split; [|reflexivity].
    destruct (CheckMemRange_values (AlignRegionToPageBoundary r))
      as [H|[H|H]]; [now right | now left | contradiction].
Qed.

Lemma short_range_is_rejected_witness :
  fst (AlignMoveRegionToLargePages kernel_ok
         {| from := 0x200000; to := 0x3fffff |} running)
  = map_region_too_small \/
  fst (AlignMoveRegionToLargePages kernel_ok
         {| from := 0x200000; to := 0x3fffff |} running)
  = map_invalid_region_address.
Proof.
  apply (short_range_is_rejected kernel_ok
           {| from := 0x200000; to := 0x3fffff |} running).
  - unfold is_ptr; rewrite two64_value; cbn [from to]; lia.
  - unfold is_ptr; rewrite two64_value; cbn [from to]; lia.
  - cbn [from to]. rewrite HPS_value. lia.
Defined.

(** ** The remapper: statuses, frame, scratch region *)

Section RemapAnyRange.

Variables (k : kernel) (r : mem_range) (w : world).

(** A fixed mapping at the address [(void* )-1] could not be told from a
    failure; no aligned address is that one. *)
Hypothesis Hstart : from r <> MAP_FAILED.

(** Splits on the answers of the kernel and runs the remapper, the size of
    the range left as it is. *)
Ltac kernel_cases :=
  unfold MoveRegionToLargePages, clean_exit_nmem, clean_exit_tmem_nmem;
  destruct (Z.eq_dec (k_mmap_nmem k) MAP_FAILED) as [En|En];
    [rewrite En|];
  (destruct (Z.eq_dec (k_mmap_tmem k) MAP_FAILED) as [Et|Et];
    [rewrite Et|]);
  destruct (k_madvise k), (k_mprotect k), (k_munmap_tmem k),
    (k_munmap_nmem k); exec.

(** The status of each path. *)
Lemma Move_status :
  fst (MoveRegionToLargePages k r w) =
  match remap_path_of k with
  | ScratchFailed => map_see_errno
  | FixedFailed true => map_see_errno_mmap_tmem_failed
  | FixedFailed false => map_see_errno_mmap_tmem_munmap_nmem_failed
  | AdviseFailed true true => map_see_errno_madvise_tmem_failed
  | AdviseFailed false true => map_see_errno_madvise_tmem_munmap_tmem_failed
  | AdviseFailed true false => map_see_errno_madvise_tmem_munmap_nmem_failed
  | AdviseFailed false false => map_see_errno_madvise_tmem_munmaps_failed
  | ProtectFailed true true => map_see_errno_mprotect_failed
  | ProtectFailed false true => map_see_errno_mprotect_munmap_tmem_failed
  | ProtectFailed true false => map_see_errno_mprotect_munmap_nmem_failed
  | ProtectFailed false false => map_see_errno_mprotect_munmaps_failed
  | ReleaseFailed => map_see_errno_munmap_nmem_failed
  | Remapped => map_ok
  end.
Proof.
  unfold remap_path_of. kernel_cases; reflexivity.
Qed.

(** X7.  The remapper touches no address outside the range and the scratch
    region: whatever the outcome, every other address is mapped, protected
    and filled as before. *)
Theorem remap_frame (a : Z) :
  let size := wrap64 (to r - from r) in
  ~ from r <= a < from r + size ->
  ~ k_mmap_nmem k <= a < k_mmap_nmem k + size ->
  memory (snd (MoveRegionToLargePages k r w)) a = memory w a.
Proof.
  intros size Hout Hscratch. subst size.
  set (size := wrap64 (to r - from r)) in *.
  kernel_cases; at_address a; try reflexivity; contradiction.
Qed.

(** X8.  Unless the status reports a failed [munmap] of the scratch region, no
    address of the scratch region is left mapped. *)
Theorem scratch_released_unless_reported :
  k_mmap_nmem k <> MAP_FAILED ->
  reports_scratch_kept (fst (MoveRegionToLargePages k r w)) = false ->
  unmapped (memory (snd (MoveRegionToLargePages k r w)))
    (k_mmap_nmem k) (wrap64 (to r - from r)).
Proof.
  intros Hn. set (size := wrap64 (to r - from r)) in *.
  kernel_cases; try contradiction;
    try (intros H; discriminate H);
    intros _ a Ha; at_address a; try reflexivity; contradiction.
Qed.

End RemapAnyRange.

Lemma text_range_start : from text_range <> MAP_FAILED.
Proof. vm_compute. discriminate. Qed.

Lemma remap_frame_witness :
  memory (snd (MoveRegionToLargePages kernel_madvise_fails text_range
                 running)) 0x1fffff
  = memory running 0x1fffff.
Proof.
  apply (remap_frame kernel_madvise_fails text_range running
           text_range_start 0x1fffff).
  - vm_compute. intros [H _]. now apply H.
  - vm_compute. intros [H _]. now apply H.
Defined.

Lemma scratch_released_unless_reported_witness :
  unmapped
    (memory (snd (MoveRegionToLargePages kernel_madvise_fails text_range
                    running)))
    (k_mmap_nmem kernel_madvise_fails)
    (wrap64 (to text_range - from text_range)).
Proof.
  apply (scratch_released_unless_reported kernel_madvise_fails text_range
           running text_range_start).
  - vm_compute. discriminate.
  - reflexivity.
Defined.

(** X9.  The status tells which step failed and which rollback [munmap]s
    failed with it: two runs that return the same status took the same
    path. *)
Theorem status_identifies_path
    (k1 k2 : kernel) (r1 r2 : mem_range) (w1 w2 : world) :
  from r1 <> MAP_FAILED -> from r2 <> MAP_FAILED ->
  fst (MoveRegionToLargePages k1 r1 w1)
  = fst (MoveRegionToLargePages k2 r2 w2) ->
  remap_path_of k1 = remap_path_of k2.
Proof.
  intros H1 H2. rewrite (Move_status k1 r1 w1 H1), (Move_status k2 r2 w2 H2).
  destruct (remap_path_of k1) as [| [] | [] [] | [] [] | |];
    destruct (remap_path_of k2) as [| [] | [] [] | [] [] | |];
    intros H; first [reflexivity | discriminate H].
Qed.

Lemma status_identifies_path_witness :
  remap_path_of kernel_madvise_fails = AdviseFailed true true.
Proof.
  apply (status_identifies_path kernel_madvise_fails
           {| k_mmap_nmem := 0x80000000; k_mmap_tmem := 0;
              k_madvise := false; k_mprotect := false;
              k_munmap_tmem := true; k_munmap_nmem := true |}
           text_range text_range running running
           text_range_start text_range_start).
  reflexivity.
Defined.

Section RemapCode.

Variables (k : kernel) (r : mem_range) (w : world).

Hypothesis Hfrom : is_ptr (from r).
Hypothesis Hto : is_ptr (to r).
Hypothesis Hval : validated r.
Hypothesis Hcode : code_mapped (memory w) r.
Hypothesis Hfresh : fresh_scratch k (memory w) r.

Ltac code_cases :=
  unfold MoveRegionToLargePages, clean_exit_nmem, clean_exit_tmem_nmem;
  rewrite (validated_size r Hfrom Hto Hval);
  pose proof (validated_start r Hto Hval) as start_ok;
  destruct (Z.eq_dec (k_mmap_nmem k) MAP_FAILED) as [En|En];
    [rewrite En
    |pose proof (scratch_disjoint k r w Hval Hcode Hfresh En) as Hdis];
  (destruct (Z.eq_dec (k_mmap_tmem k) MAP_FAILED) as [Et|Et];
    [rewrite Et|]);
  destruct (k_madvise k), (k_mprotect k), (k_munmap_tmem k),
    (k_munmap_nmem k); exec.

(** After a successful run each cell of the range is the original one
    with read+execute protection and the huge-page advice. *)
Lemma Move_ok_cell (a : Z) (c : cell) :
  fst (MoveRegionToLargePages k r w) = map_ok ->
  from r <= a < to r ->
  memory w a = Some c ->
  memory (snd (MoveRegionToLargePages k r w)) a
  = Some {| c_prot := Z.lor PROT_READ PROT_EXEC; c_byte := c_byte c;
            c_huge := true |}.
Proof.
  code_cases; try discriminate.
  all: intros _ Ha Hc.
  all: destruct (Hcode a Ha) as (c' & Hc' & Hr & _).
  all: assert (c' = c) by congruence; subst c'.
  all: at_address a; read_cell Hc Hr; reflexivity.
Qed.

(** X10.  When the remapper returns [map_ok], every byte of the range belongs
    to a mapping advised with [MADV_HUGEPAGE]. *)
Theorem remap_ok_advises_huge_pages :
  fst (MoveRegionToLargePages k r w) = map_ok ->
  huge_advised (memory (snd (MoveRegionToLargePages k r w))) r.
Proof.
  intros Hok a Ha. destruct (Hcode a Ha) as (c & Hc & _).
  rewrite (Move_ok_cell a c Hok Ha Hc). reflexivity.
Qed.

(** X11.  When the status reports that the scratch region could not be
    released, that region is still mapped and holds the copy of the code:
    byte [i] of the scratch region is byte [i] of the range as it was. *)
Theorem scratch_kept_holds_code_copy (a : Z) :
  reports_scratch_kept (fst (MoveRegionToLargePages k r w)) = true ->
  from r <= a < to r ->
  option_map c_byte
    (memory (snd (MoveRegionToLargePages k r w))
       (k_mmap_nmem k + (a - from r)))
  = option_map c_byte (memory w a) /\
  memory (snd (MoveRegionToLargePages k r w)) (k_mmap_nmem k + (a - from r))
  <> None.
Proof.
  code_cases; try (intros H; discriminate H).
  all: intros _ Ha.
  all: destruct (Hcode a Ha) as (c & Hc & Hr & _).
  all: at_address a; read_cell Hc Hr.
  all: split; [reflexivity | discriminate].
Qed.

End RemapCode.

Lemma remap_ok_advises_huge_pages_witness :
  huge_advised
    (memory (snd (MoveRegionToLargePages kernel_ok text_range running)))
    text_range.
Proof.
  apply (remap_ok_advises_huge_pages kernel_ok text_range running).
  - apply text_range_ptr.
  - apply text_range_ptr.
  - apply text_range_validated.
  - apply running_code_mapped.
  - apply running_scratch_fresh. reflexivity.
  - reflexivity.
Defined.

Lemma scratch_kept_holds_code_copy_witness :
  option_map c_byte
    (memory (snd (MoveRegionToLargePages kernel_release_fails text_range
                    running))
       (k_mmap_nmem kernel_release_fails + (0x200000 - from text_range)))
  = option_map c_byte (memory running 0x200000) /\
  memory (snd (MoveRegionToLargePages kernel_release_fails text_range
                 running))
    (k_mmap_nmem kernel_release_fails + (0x200000 - from text_range))
  <> None.
Proof.
  apply (scratch_kept_holds_code_copy kernel_release_fails text_range
           running).
  - apply text_range_ptr.
  - apply text_range_ptr.
  - apply text_range_validated.
  - apply running_code_mapped.
  - apply running_scratch_fresh. reflexivity.
  - reflexivity.
  - cbn [from to text_range]. lia.
Defined.

(** ** Region discovery *)

Lemma find_text_from (shdrs : list Shdr) (acc : option Shdr) :
  (forall x, In x shdrs -> String.prefix ".text" (sh_name x) = false) ->
  fold_left
    (fun shdr_text sh =>
       if String.prefix ".text" (sh_name sh) then Some sh else shdr_text)
    shdrs acc = acc.
Proof.
  revert acc. induction shdrs as [|x l IH]; intros acc H; [reflexivity|].
  cbn [fold_left]. rewrite (H x (or_introl eq_refl)).
  apply IH. intros y Hy. apply H. now right.
Qed.

(** X12.  The scan of the section headers does not stop at the first match: of
    several sections whose names start with [.text], the last one is the
    code section; with none, there is no code section. *)
Theorem find_text_takes_last_match (before after : list Shdr) (sh : Shdr) :
  String.prefix ".text" (sh_name sh) = true ->
  (forall x, In x after -> String.prefix ".text" (sh_name x) = false) ->
  find_text (before ++ sh :: after) = Some sh.
Proof.
  intros Hsh Hafter. unfold find_text.
  rewrite fold_left_app. cbn [fold_left]. rewrite Hsh.
  now apply find_text_from.
Qed.

Lemma find_text_takes_last_match_witness :
  find_text
    ([ {| sh_name := ".text"; sh_addr := 0x1000; sh_size := 0x2000 |} ]
     ++ {| sh_name := ".text.hot"; sh_addr := 0x3000; sh_size := 0x400 |}
     :: [ {| sh_name := ".data"; sh_addr := 0x4000; sh_size := 0x10 |} ])
  = Some {| sh_name := ".text.hot"; sh_addr := 0x3000; sh_size := 0x400 |}.
Proof.
  apply find_text_takes_last_match.
  - reflexivity.
  - intros x [<- | []]. reflexivity.
Defined.

Section Discovery.

Variable regex_t : Type.
Variable regcomp : string -> option regex_t.
Variable regexec : regex_t -> string -> bool.
Variable fs : string -> exe_file.

Variables (hdr : dl_phdr_info) (rest : list dl_phdr_info).

(** The first loaded object is the main executable. *)
Hypothesis Hmain : dlpi_name hdr = "".

Lemma main_exe_selected (fp : FindParams regex_t) :
  FindMapping regex_t regexec fs hdr fp =
  let f := fs "/proc/self/exe" in
  if negb (stat_ok f) then (- map_failed_to_stat_exe, fp) else
  if negb (open_ok f) then (- map_failed_to_open_exe, fp) else
  match image f with
  | None => (- map_failed_to_map_exe_see_errno, fp)
  | Some shdrs =>
      match find_text shdrs with
      | None => (- map_failed_to_find_text_section, fp)
      | Some shdr_text =>
          let s := wrap64 (sh_addr shdr_text + dlpi_addr hdr) in
          let fp' :=
            {| start := s; end_ := wrap64 (s + sh_size shdr_text);
               regex := regex fp; have_regex := have_regex fp |} in
          if negb (munmap_ok f) then (map_failed_to_unmap_exe_see_errno, fp')
          else if negb (close_ok f) then
                 (- map_failed_to_close_exe_see_errno, fp')
          else (1, fp')
      end
  end.
Proof.
  unfold FindMapping, name_is_empty. rewrite Hmain.
  rewrite orb_true_r. reflexivity.
Qed.

(** X13.  The failures of [stat], [open] and [mmap] on the file of the main
    executable, a missing [.text] section and the failure of [close] each
    reach the caller of [FindTextRegion] as their own status, and the
    caller's region is left as it was. *)
Theorem discovery_failures_propagate (region : mem_range) :
  let f := fs "/proc/self/exe" in
  let found :=
    FindTextRegion regex_t regcomp regexec fs (hdr :: rest) None region in
  (stat_ok f = false -> found = (map_failed_to_stat_exe, region)) /\
  (stat_ok f = true -> open_ok f = false ->
   found = (map_failed_to_open_exe, region)) /\
  (stat_ok f = true -> open_ok f = true -> image f = None ->
   found = (map_failed_to_map_exe_see_errno, region)) /\
  (forall shdrs,
      stat_ok f = true -> open_ok f = true -> image f = Some shdrs ->
      find_text shdrs = None ->
      found = (map_failed_to_find_text_section, region)) /\
  (forall shdrs sh,
      stat_ok f = true -> open_ok f = true -> image f = Some shdrs ->
      find_text shdrs = Some sh ->
      munmap_ok f = true -> close_ok f = false ->
      found = (map_failed_to_close_exe_see_errno, region)).
Proof.
  intros f found. subst found. unfold FindTextRegion.
  rewrite first_object_decides, main_exe_selected. fold f. cbv zeta.
  repeat split; intros.
  all: repeat match goal with
              | H : _ = _ |- _ => rewrite H; clear H
              end; reflexivity.
Qed.

(** X14.  With every file call succeeding, the region is that of the code
    section, displaced by the load address of the object, both bounds
    wrapping at 64 bits. *)
Theorem discovery_finds_code_section
    (region : mem_range) (shdrs : list Shdr) (sh : Shdr) :
  let f := fs "/proc/self/exe" in
  stat_ok f = true -> open_ok f = true -> image f = Some shdrs ->
  find_text shdrs = Some sh -> close_ok f = true ->
  FindTextRegion regex_t regcomp regexec fs (hdr :: rest) None region
  = (map_ok,
     {| from := wrap64 (sh_addr sh + dlpi_addr hdr);
        to := wrap64 (wrap64 (sh_addr sh + dlpi_addr hdr) + sh_size sh) |}).
Proof.
  intros f Hs Ho Hi Ht Hc. unfold FindTextRegion.
  rewrite first_object_decides, main_exe_selected. fold f. cbv zeta.
  rewrite Hs, Ho, Hi, Ht, Hc. destruct (munmap_ok f); reflexivity.
Qed.

(** X15.  A pattern makes no difference when the first loaded object is the main
    executable: whatever compilable pattern is given, the named-module
    entry point does what the main-executable entry point does. *)
Theorem pattern_is_ignored_for_main_executable
    (k : kernel) (pattern : string) (w : world) :
  regcomp pattern <> None ->
  MapDSOToLargePages regex_t regcomp regexec fs (hdr :: rest) k
    (Some pattern) w
  = MapStaticCodeToLargePages regex_t regcomp regexec fs (hdr :: rest) k w.
Proof.
  intros Hre. unfold MapDSOToLargePages, MapStaticCodeToLargePages.
  assert (Hfind :
            FindTextRegion regex_t regcomp regexec fs (hdr :: rest)
              (Some pattern) {| from := 0; to := 0 |}
            = FindTextRegion regex_t regcomp regexec fs (hdr :: rest)
                None {| from := 0; to := 0 |}).
  { unfold FindTextRegion.
    destruct (regcomp pattern) as [re|]; [|contradiction].
    rewrite !first_object_decides, !main_exe_selected. cbv zeta.
    destruct (stat_ok (fs "/proc/self/exe")); [|reflexivity].
    destruct (open_ok (fs "/proc/self/exe")); [|reflexivity].
    destruct (image (fs "/proc/self/exe")) as [shdrs|]; [|reflexivity].
    destruct (find_text shdrs); [|reflexivity].
    destruct (munmap_ok (fs "/proc/self/exe")); [|reflexivity].
    destruct (close_ok (fs "/proc/self/exe")); reflexivity. }
  rewrite Hfind. reflexivity.
Qed.

End Discovery.

Lemma discovery_failures_propagate_witness :
  FindTextRegion string literal_regcomp literal_regexec fs_close_fails
    loaded None text_range
  = (map_failed_to_close_exe_see_errno, text_range).
Proof.
  pose proof (discovery_failures_propagate string literal_regcomp
                literal_regexec fs_close_fails main_exe [libfoo] eq_refl
                text_range) as (_ & _ & _ & _ & Hclose).
  apply (Hclose elf_sections
           {| sh_name := ".text"; sh_addr := 0x1000; sh_size := 0x600000 |});
    reflexivity.
Defined.

Lemma discovery_finds_code_section_witness :
  FindTextRegion string literal_regcomp literal_regexec fs_ok
    loaded None text_range
  = (map_ok, {| from := 0x401000; to := 0xa01000 |}).
Proof.
  apply (discovery_finds_code_section string literal_regcomp literal_regexec
           fs_ok main_exe [libfoo] eq_refl text_range elf_sections
           {| sh_name := ".text"; sh_addr := 0x1000; sh_size := 0x600000 |});
    reflexivity.
Defined.

Lemma pattern_is_ignored_for_main_executable_witness :
  MapDSOToLargePages string literal_regcomp literal_regexec fs_ok loaded
    kernel_ok (Some "libfoo") exe_running
  = MapStaticCodeToLargePages string literal_regcomp literal_regexec fs_ok
      loaded kernel_ok exe_running.
Proof.
  apply (pattern_is_ignored_for_main_executable string literal_regcomp
           literal_regexec fs_ok main_exe [libfoo] eq_refl kernel_ok
           "libfoo" exe_running).
  discriminate.
Defined.

Section FirstObject.

Variable regex_t : Type.
Variable regcomp : string -> option regex_t.
Variable regexec : regex_t -> string -> bool.
Variable fs : string -> exe_file.

Variables (hdr : dl_phdr_info) (rest : list dl_phdr_info).

(** X16.  Only the first loaded object is ever examined: the callback returns a
    nonzero value on every object, which ends the enumeration, so that
    the objects after the first have no influence on the result. *)
Theorem only_first_object_is_examined
    (lib_regex : option string) (region : mem_range) :
  FindTextRegion regex_t regcomp regexec fs (hdr :: rest) lib_regex region
  = FindTextRegion regex_t regcomp regexec fs [hdr] lib_regex region.
Proof.
  unfold FindTextRegion.
  destruct lib_regex as [pattern|];
    [destruct (regcomp pattern); [|reflexivity]|];
    rewrite !first_object_decides; reflexivity.
Qed.

(** X17.  When the first loaded object has a name that the pattern does not
    match, the named-module entry point returns [map_region_not_found]
    and does nothing else, whatever objects are loaded after it. *)
Theorem unmatched_first_object_hides_the_rest
    (k : kernel) (pattern : string) (re : regex_t) (w : world) :
  name_is_empty hdr = false ->
  regcomp pattern = Some re ->
  regexec re (dlpi_name hdr) = false ->
  MapDSOToLargePages regex_t regcomp regexec fs (hdr :: rest) k
    (Some pattern) w
  = (map_region_not_found, w).
Proof.
  intros Hname Hre Hno. unfold MapDSOToLargePages, FindTextRegion.
  rewrite Hre, first_object_decides.
  unfold FindMapping, regex_matches. cbn [have_regex regex].
  rewrite Hno, Hname. reflexivity.
Qed.

End FirstObject.

Lemma unmatched_first_object_hides_the_rest_witness :
  literal_regexec "libbar" "/usr/lib/libbar.so" = true /\
  MapDSOToLargePages string literal_regcomp literal_regexec fs_ok
    [libfoo; {| dlpi_name := "/usr/lib/libbar.so";
                dlpi_addr := 0x7f0000800000 |}]
    kernel_ok (Some "libbar") exe_running
  = (map_region_not_found, exe_running).
Proof.
  split; [reflexivity|].
  apply (unmatched_first_object_hides_the_rest string literal_regcomp
           literal_regexec fs_ok libfoo
           [{| dlpi_name := "/usr/lib/libbar.so";
               dlpi_addr := 0x7f0000800000 |}]
           kernel_ok "libbar" "libbar" exe_running);
    reflexivity.
Defined.

(** ** The table of status texts *)

Lemma MapStatusStr_index (s : map_status) (fulltext : bool) :
  0 <= s ->
  MapStatusStr s fulltext
  = nth_error map_status_text
      (2 * Z.to_nat s + (if fulltext then 1 else 0))%nat.
Proof.
  intros Hs. unfold MapStatusStr. rewrite Z.shiftl_mul_pow2 by lia.
  change (2 ^ 1) with 2.
  destruct (Z.ltb_spec (s * 2 + (if fulltext then 1 else 0)) 0) as [H|H];
    [destruct fulltext; lia|].
  f_equal. destruct fulltext; lia.
Qed.

Lemma MapStatusStr_negative (s : map_status) (fulltext : bool) :
  s < 0 -> MapStatusStr s fulltext = None.
Proof.
  intros Hs. unfold MapStatusStr. rewrite Z.shiftl_mul_pow2 by lia.
  change (2 ^ 1) with 2.
  destruct (Z.ltb_spec (s * 2 + (if fulltext then 1 else 0)) 0) as [H|H];
    [reflexivity | destruct fulltext; lia].
Qed.

Lemma map_status_text_length : List.length map_status_text = 54%nat.
Proof. reflexivity. Qed.

Lemma MapStatusStr_defined (s : map_status) (fulltext : bool) :
  0 <= s <= 26 -> MapStatusStr s fulltext <> None.
Proof.
  intros Hs. rewrite MapStatusStr_index by lia.
  apply nth_error_Some. rewrite map_status_text_length.
  destruct fulltext; lia.
Qed.

(** X18.  [MapStatusStr] has a text, short and full, for exactly the statuses
    from [map_ok] to [map_unsupported_platform]; any other value indexes
    outside the table. *)
Theorem MapStatusStr_defined_on_statuses
    (s : map_status) (fulltext : bool) :
  MapStatusStr s fulltext <> None <->
  map_ok <= s <= map_unsupported_platform.
Proof.
  unfold map_ok, map_unsupported_platform. split.
  - intros H. destruct (Z_lt_le_dec s 0) as [Hneg|Hpos].
    + now rewrite MapStatusStr_negative in H.
    + rewrite MapStatusStr_index in H by assumption.
      apply nth_error_Some in H. rewrite map_status_text_length in H.
      destruct fulltext; lia.
  - apply MapStatusStr_defined.
Qed.

Lemma no_repeat_NoDup (l : list string) : no_repeat l = true -> NoDup l.
Proof.
  induction l as [|x l IH]; cbn [no_repeat]; intros H; constructor.
  - apply andb_true_iff in H as [H _]. apply negb_true_iff in H.
    intros Hin. assert (Hex : existsb (String.eqb x) l = true).
    { apply existsb_exists. exists x. split; [assumption|].
      apply String.eqb_refl. }
    congruence.
  - apply IH. now apply andb_true_iff in H as [_ H].
Qed.

(** X19.  No text of the table is used twice: a text returned by [MapStatusStr]
    identifies both the status and the form, short or full. *)
Theorem MapStatusStr_injective
    (s1 s2 : map_status) (full1 full2 : bool) (text : string) :
  MapStatusStr s1 full1 = Some text ->
  MapStatusStr s2 full2 = Some text ->
  s1 = s2 /\ full1 = full2.
Proof.
  intros H1 H2.
  assert (P1 : 0 <= s1).
  { destruct (Z_lt_le_dec s1 0) as [Hn|]; [|assumption].
    now rewrite MapStatusStr_negative in H1. }
  assert (P2 : 0 <= s2).
  { destruct (Z_lt_le_dec s2 0) as [Hn|]; [|assumption].
    now rewrite MapStatusStr_negative in H2. }
  rewrite MapStatusStr_index in H1, H2 by assumption.
  assert (Hnd : NoDup map_status_text)
    by (apply no_repeat_NoDup; vm_compute; reflexivity).
  assert (Hlt : (2 * Z.to_nat s1 + (if full1 then 1 else 0)
                 < List.length map_status_text)%nat).
  { apply nth_error_Some. rewrite H1. discriminate. }
  assert (Hidx := proj1 (NoDup_nth_error map_status_text) Hnd _ _ Hlt
                    (eq_trans H1 (eq_sym H2))).
  destruct full1, full2; split; try reflexivity; lia.
Qed.

Lemma MapStatusStr_injective_witness :
  map_region_too_small = map_region_too_small /\ true = true.
Proof.
  apply (MapStatusStr_injective map_region_too_small map_region_too_small
           true true "map region too small"); reflexivity.
Defined.

(** ** Every status returned has a text *)

Lemma MAP_FAILED_unaligned (a : Z) : a mod HPS = 0 -> a <> MAP_FAILED.
Proof.
  intros Ha ->. revert Ha. vm_compute. discriminate.
Qed.

Lemma Move_status_listed (k : kernel) (r : mem_range) (w : world) :
  from r <> MAP_FAILED ->
  0 <= fst (MoveRegionToLargePages k r w) <= 26.
Proof.
  intros Hs. rewrite (Move_status k r w Hs).
  destruct (remap_path_of k) as [| [] | [] [] | [] [] | |];
    vm_compute; split; discriminate.
Qed.

Lemma AlignMove_status_listed (k : kernel) (r : mem_range) (w : world) :
  is_ptr (from r) -> is_ptr (to r) ->
  0 <= fst (AlignMoveRegionToLargePages k r w) <= 26.
Proof.
  intros Hf Ht. rewrite AlignMove_unfold.
  destruct (Z.eqb_spec (CheckMemRange (AlignRegionToPageBoundary r)) map_ok)
    as [Hok|Hno].
  - apply Move_status_listed, MAP_FAILED_unaligned.
    apply (aligned_check_validated r Hf Ht Hok).
  - cbn [fst].
    destruct (CheckMemRange_values (AlignRegionToPageBoundary r))
      as [H|[H|H]]; rewrite H; vm_compute; split; discriminate.
Qed.

Section ListedStatuses.

Variable regex_t : Type.
Variable regcomp : string -> option regex_t.
Variable regexec : regex_t -> string -> bool.
Variable fs : string -> exe_file.
Variable objects : list dl_phdr_info.

(** What the callback returns, and the bounds it has stored when it
    returns a positive value. *)
Lemma FindMapping_result (hdr : dl_phdr_info) (fp : FindParams regex_t) :
  let res := FindMapping regex_t regexec fs hdr fp in
  (-12 <= fst res <= -2) \/
  (0 < fst res /\ is_ptr (start (snd res)) /\ is_ptr (end_ (snd res))).
Proof.
  unfold FindMapping.
  repeat match goal with
         | |- context [if ?b then _ else _] => destruct b
         | |- context [match ?o with Some _ => _ | None => _ end] =>
             destruct o
         end; cbn [fst snd start end_];
    first [ left; vm_compute; split; discriminate
          | right; split; [reflexivity | split; apply wrap64_ptr] ].
Qed.

(** The status of the discovery is a listed one, and a region found has
    64-bit bounds. *)
Lemma FindTextRegion_result (lib_regex : option string) :
  let res :=
    FindTextRegion regex_t regcomp regexec fs objects lib_regex
      {| from := 0; to := 0 |} in
  0 <= fst res <= 26 /\ is_ptr (from (snd res)) /\ is_ptr (to (snd res)).
Proof.
  assert (Hz : is_ptr 0) by (unfold is_ptr; rewrite two64_value; lia).
  unfold FindTextRegion.
  destruct lib_regex as [pattern|];
    [destruct (regcomp pattern) as [re|];
     [|cbn [fst snd from to]; repeat split; try apply Hz;
       vm_compute; discriminate]|].
  all: destruct objects as [|hdr rest];
    [cbn; repeat split; try apply Hz; discriminate|].
  all: rewrite first_object_decides.
  all: match goal with
       | |- context [FindMapping regex_t regexec fs ?h ?fp] =>
           pose proof (FindMapping_result h fp) as H;
           destruct (FindMapping regex_t regexec fs h fp) as [s fp']
       end.
  all: cbn [fst snd] in H.
  all: destruct H as [H|(H & Hs & He)].
  all: destruct (Z.ltb_spec s 0); try lia; cbn [fst snd from to].
  all: split; [unfold map_ok; lia | split; assumption].
Qed.

(** X20.  Whatever the loaded objects, the files, the pattern and the answers of
    the kernel, the status returned by the main-executable and the
    named-module entry points is one for which [MapStatusStr] has a text;
    so is the status of the explicit-range entry point on 64-bit bounds. *)
Theorem entry_points_return_listed_statuses (fulltext : bool) :
  (forall k w,
      MapStatusStr
        (fst (MapStaticCodeToLargePages regex_t regcomp regexec fs objects
                k w)) fulltext <> None) /\
  (forall k lib_regex w,
      MapStatusStr
        (fst (MapDSOToLargePages regex_t regcomp regexec fs objects
                k lib_regex w)) fulltext <> None) /\
  (forall k a b w,
      is_ptr a -> is_ptr b ->
      MapStatusStr (fst (MapStaticCodeRangeToLargePages k a b w)) fulltext
      <> None).
Proof.
  split; [|split].
  - intros k w. apply MapStatusStr_defined.
    unfold MapStaticCodeToLargePages.
    pose proof (FindTextRegion_result None) as H. cbv zeta in H.
    destruct (FindTextRegion regex_t regcomp regexec fs objects None
                {| from := 0; to := 0 |}) as [s r].
    cbn [fst snd] in H. destruct H as (Hs & Hf & Ht).
    destruct (s =? map_ok); cbn [negb];
      [now apply AlignMove_status_listed | exact Hs].
  - intros k lib_regex w. apply MapStatusStr_defined.
    unfold MapDSOToLargePages.
    destruct lib_regex as [pattern|];
      [|vm_compute; split; discriminate].
    pose proof (FindTextRegion_result (Some pattern)) as H. cbv zeta in H.
    destruct (FindTextRegion regex_t regcomp regexec fs objects
                (Some pattern) {| from := 0; to := 0 |}) as [s r].
    cbn [fst snd] in H. destruct H as (Hs & Hf & Ht).
    destruct (s =? map_ok); cbn [negb];
      [now apply AlignMove_status_listed | exact Hs].
  - intros k a b w Ha Hb. apply MapStatusStr_defined.
    unfold MapStaticCodeRangeToLargePages.
    now apply AlignMove_status_listed.
Qed.

End ListedStatuses.

Lemma entry_points_return_listed_statuses_witness :
  MapStatusStr
    (fst (MapStaticCodeRangeToLargePages kernel_madvise_fails
            0x200000 0x400000 running)) true
  <> None.
Proof.
  apply (entry_points_return_listed_statuses string literal_regcomp
           literal_regexec fs_ok loaded true);
    unfold is_ptr; rewrite two64_value; lia.
Defined.

Lemma MapStatusStr_defined_on_statuses_witness :
  MapStatusStr map_unsupported_platform true <> None.
Proof.
  apply (MapStatusStr_defined_on_statuses map_unsupported_platform true).
  vm_compute. split; discriminate.
Defined.

(** ** The probe, continued *)

Lemma strcmp_c_token_eqb (t lit : string) :
  c_token t = true -> c_str lit = lit ->
  strcmp_eq t lit = String.eqb t lit.
Proof.
  intros Ht Hl. unfold strcmp_eq. now rewrite (c_token_c_str t Ht), Hl.
Qed.

(** X21.  The probe looks for "[always]" in the first position and "[madvise]"
    in the second, and nowhere else: with three tokens or more the answer
    is enabled exactly when one of the two is there, whatever the third
    token and the tokens after it. *)
Theorem probe_reads_two_positions
    (content t1 t2 t3 : string) (rest : list string) (result : bool) :
  tokens content = t1 :: t2 :: t3 :: rest ->
  c_token t1 = true -> c_token t2 = true -> fits16 t3 = true ->
  IsLargePagesEnabled true (Some content) result
  = Some (map_ok, String.eqb t1 "[always]" || String.eqb t2 "[madvise]").
Proof.
  intros Htok H1 H2 H3.
  unfold IsLargePagesEnabled, IsTransparentHugePagesEnabled. cbn [negb].
  rewrite fscanf_sss_tokens, Htok.
  rewrite (c_token_fits t1 H1), (c_token_fits t2 H2), H3.
  cbn [andb negb Z.eqb Pos.eqb].
  rewrite (strcmp_c_token_eqb t1 "[always]" H1 eq_refl).
  rewrite (strcmp_c_token_eqb t2 "[madvise]" H2 eq_refl).
  destruct (String.eqb t1 "[always]"); [reflexivity|].
  destruct (String.eqb t2 "[madvise]"); [reflexivity|].
  destruct (strcmp_eq t3 "[never]"); reflexivity.
Qed.

Lemma probe_reads_two_positions_witness :
  IsLargePagesEnabled true (Some "never [madvise] [always] always") false
  = Some (map_ok, true).
Proof.
  apply (probe_reads_two_positions "never [madvise] [always] always"
           "never" "[madvise]" "[always]" ["always"] false);
    reflexivity.
Defined.

(** X22.  The answer of the probe depends on the first three tokens of the file
    only: neither the white space between them nor anything after the
    third token has an influence. *)
Theorem probe_depends_on_first_three_tokens
    (ENABLE_LARGE_CODE_PAGES : bool) (content1 content2 : string)
    (result : bool) :
  firstn 3 (tokens content1) = firstn 3 (tokens content2) ->
  IsLargePagesEnabled ENABLE_LARGE_CODE_PAGES (Some content1) result
  = IsLargePagesEnabled ENABLE_LARGE_CODE_PAGES (Some content2) result.
Proof.
  intros H. unfold IsLargePagesEnabled, IsTransparentHugePagesEnabled.
  destruct ENABLE_LARGE_CODE_PAGES; [|reflexivity]. cbn [negb].
  rewrite !fscanf_sss_tokens.
  destruct (tokens content1) as [|a1 [|b1 [|c1 l1]]];
    destruct (tokens content2) as [|a2 [|b2 [|c2 l2]]];
    cbn [firstn] in H; try discriminate H;
    inversion H; subst; reflexivity.
Qed.

Lemma probe_depends_on_first_three_tokens_witness :
  IsLargePagesEnabled true
    (Some ("  [always]" ++ newline ++ "madvise   never extra" ++ newline))
    false
  = IsLargePagesEnabled true (Some thp_always) false.
Proof.
  apply (probe_depends_on_first_three_tokens true
           ("  [always]" ++ newline ++ "madvise   never extra" ++ newline)
           thp_always false).
  vm_compute. reflexivity.
Defined.

(** ** The start-up hook *)

Lemma probe_status_listed
    (enable : bool) (thp_file : option string) (result enabled : bool)
    (status : map_status) :
  IsLargePagesEnabled enable thp_file result = Some (status, enabled) ->
  0 <= status <= 26.
Proof.
  unfold IsLargePagesEnabled, IsTransparentHugePagesEnabled.
  destruct enable; cbn [negb];
    [|intros H; injection H as <- _; vm_compute; split; discriminate].
  destruct thp_file as [content|];
    [|intros H; injection H as <- _; vm_compute; split; discriminate].
  destruct (fscanf_sss content "" "" "")
    as [[matched [[always madvise] never]]|]; [|discriminate].
  repeat match goal with
         | |- context [if ?b then _ else _] => destruct b
         end;
    intros H; injection H as <- _; vm_compute; split; discriminate.
Qed.

Section HookFacts.

Variable regex_t : Type.
Variable regcomp : string -> option regex_t.
Variable regexec : regex_t -> string -> bool.
Variable fs : string -> exe_file.
Variable objects : list dl_phdr_info.

Variables (e : hook_env) (enable : bool) (thp_file : option string).
Variables (k : kernel) (w : world).


Lemma mapped_status_listed :
  0 <= fst (MapStaticCodeToLargePages regex_t regcomp regexec fs objects k w)
  <= 26.
Proof.
  unfold MapStaticCodeToLargePages.
  pose proof (FindTextRegion_result regex_t regcomp regexec fs objects None)
    as H. cbv zeta in H.
  destruct (FindTextRegion regex_t regcomp regexec fs objects None
              {| from := 0; to := 0 |}) as [s r].
  cbn [fst snd] in H. destruct H as (Hs & Hf & Ht).
  destruct (s =? map_ok); cbn [negb];
    [now apply AlignMove_status_listed | exact Hs].
Qed.

Lemma hook_fail_listed
    (log : option string) (status : map_status) (en : bool) (w' : world) :
  0 <= status <= 26 -> status <> map_ok ->
  exists text,
    MapStatusStr status true = Some text /\
    hook_fail log status en w'
    = Some {| log_file := log;
              log_lines :=
                ["Mapping to large pages failed: " ++ text ++ newline];
              process := w' |}.
Proof.
  intros Hl Hno. unfold hook_fail.
  apply Z.eqb_neq in Hno. rewrite Hno.
  pose proof (MapStatusStr_defined status true Hl) as Hd.
  destruct (MapStatusStr status true) as [text|]; [|contradiction].
  exists text. split; reflexivity.
Qed.

(** X23.  The hook maps nothing unless the probe succeeds and reports huge pages
    enabled: when the probe fails or reports them disabled, the process is
    left as it was and the log receives one line, the full text of the
    failure status or the notice that huge pages are not enabled. *)
Theorem hook_skips_mapping_without_huge_pages
    (status : map_status) (enabled : bool) :
  IsLargePagesEnabled enable thp_file true = Some (status, enabled) ->
  status <> map_ok \/ enabled = false ->
  exists line,
    map_to_large_pages regex_t regcomp regexec fs objects e enable thp_file
      k w
    = Some {| log_file := open_log e; log_lines := [line];
              process := w |} /\
    (status = map_ok -> line = not_enabled_message) /\
    (status <> map_ok ->
     exists text,
       MapStatusStr status true = Some text /\
       line = "Mapping to large pages failed: " ++ text ++ newline).
Proof.
  intros Hp Hcase. unfold map_to_large_pages.
  rewrite Hp.
  destruct (Z.eqb_spec status map_ok) as [Hok|Hno]; cbn [negb].
  - destruct Hcase as [Hc|Hc]; [contradiction|]. subst enabled status.
    cbn [negb]. exists not_enabled_message.
    split; [reflexivity|]. split; [reflexivity|]. intros H. now destruct H.
  - destruct (hook_fail_listed (open_log e) status enabled w
                (probe_status_listed _ _ _ _ _ Hp) Hno)
      as (text & Ht & Hf).
    rewrite Hf. eexists. split; [reflexivity|].
    split; [intros H; contradiction|]. intros _. exists text. now split.
Qed.

(** X24.  The hook is silent exactly when the code was remapped: its log stays
    empty if and only if the probe reports huge pages enabled and the
    mapping of the main executable returns [map_ok]; in every other case
    it writes exactly one line. *)
Theorem hook_is_silent_iff_remapped (res : hook_result) :
  map_to_large_pages regex_t regcomp regexec fs objects e enable thp_file
    k w = Some res ->
  (log_lines res = [] <->
   IsLargePagesEnabled enable thp_file true = Some (map_ok, true) /\
   fst (MapStaticCodeToLargePages regex_t regcomp regexec fs objects k w)
   = map_ok) /\
  (log_lines res <> [] -> exists line, log_lines res = [line]).
Proof.
  unfold map_to_large_pages.
  destruct (IsLargePagesEnabled enable thp_file true)
    as [[status enabled]|] eqn:Hp; [|discriminate].
  destruct (Z.eqb_spec status map_ok) as [Hok|Hno]; cbn [negb].
  - subst status. destruct enabled; cbn [negb].
    + pose proof mapped_status_listed as Hl.
      destruct (MapStaticCodeToLargePages regex_t regcomp regexec fs
                  objects k w) as [s w'].
      cbn [fst] in *.
      destruct (Z.eqb_spec s map_ok) as [Hs|Hs]; cbn [negb].
      * intros H. injection H as <-. cbn [log_lines].
        split; [|intros H; now destruct H].
        split; [intros _; now split | reflexivity].
      * destruct (hook_fail_listed (open_log e) s true w' Hl Hs)
          as (text & _ & Hf).
        rewrite Hf. intros H. injection H as <-. cbn [log_lines].
        split; [|intros _; eauto].
        split; [discriminate | intros [_ H]; contradiction].
    + unfold hook_fail. cbn. intros H. injection H as <-. cbn [log_lines].
      split; [|intros _; eauto].
      split; [discriminate | intros [H _]; discriminate H].
  - destruct (hook_fail_listed (open_log e) status enabled w
                (probe_status_listed _ _ _ _ _ Hp) Hno)
      as (text & _ & Hf).
    rewrite Hf. intros H. injection H as <-. cbn [log_lines].
    split; [|intros _; eauto].
    split; [discriminate|]. intros [H _]. injection H as H _.
    contradiction.
Qed.

(** X25.  The hook has a defined outcome whenever the probe has one: the status
    it prints is always one of the table of [MapStatusStr]. *)
Theorem hook_prints_listed_statuses :
  IsLargePagesEnabled enable thp_file true <> None ->
  map_to_large_pages regex_t regcomp regexec fs objects e enable thp_file
    k w <> None.
Proof.
  unfold map_to_large_pages.
  destruct (IsLargePagesEnabled enable thp_file true)
    as [[status enabled]|] eqn:Hp; [intros _|intros H; now destruct H].
  destruct (Z.eqb_spec status map_ok) as [Hok|Hno]; cbn [negb].
  - subst status. destruct enabled; cbn [negb]; [|discriminate].
    pose proof mapped_status_listed as Hl.
    destruct (MapStaticCodeToLargePages regex_t regcomp regexec fs
                objects k w) as [s w'].
    cbn [fst] in *.
    destruct (Z.eqb_spec s map_ok) as [Hs|Hs]; cbn [negb]; [discriminate|].
    destruct (hook_fail_listed (open_log e) s true w' Hl Hs)
      as (text & _ & Hf).
    rewrite Hf. discriminate.
  - destruct (hook_fail_listed (open_log e) status enabled w
                (probe_status_listed _ _ _ _ _ Hp) Hno)
      as (text & _ & Hf).
    rewrite Hf. discriminate.
Qed.

End HookFacts.

Lemma hook_skips_mapping_without_huge_pages_witness :
  exists line,
    map_to_large_pages string literal_regcomp literal_regexec fs_ok loaded
      hook_env_tmp true (Some thp_never) kernel_ok exe_running
    = Some {| log_file := open_log hook_env_tmp; log_lines := [line];
              process := exe_running |} /\
    line = not_enabled_message.
Proof.
  destruct (hook_skips_mapping_without_huge_pages string literal_regcomp
              literal_regexec fs_ok loaded hook_env_tmp true
              (Some thp_never) kernel_ok exe_running map_ok false)
    as (line & Hhook & Hline & _).
  - reflexivity.
  - right. reflexivity.
  - exists line. split; [exact Hhook | now apply Hline].
Defined.

Lemma hook_is_silent_iff_remapped_witness :
  log_lines
    {| log_file := Some "/tmp/lp_preload.4242.XXXXXX"; log_lines := [];
       process :=
         snd (MapStaticCodeToLargePages string literal_regcomp
                literal_regexec fs_ok loaded kernel_ok exe_running) |}
  = [] <->
  IsLargePagesEnabled true (Some thp_always) true = Some (map_ok, true) /\
  fst (MapStaticCodeToLargePages string literal_regcomp literal_regexec
         fs_ok loaded kernel_ok exe_running) = map_ok.
Proof.
  apply (hook_is_silent_iff_remapped string literal_regcomp literal_regexec
           fs_ok loaded hook_env_tmp true (Some thp_always) kernel_ok
           exe_running).
  reflexivity.
Defined.

Lemma hook_prints_listed_statuses_witness :
  map_to_large_pages string literal_regcomp literal_regexec fs_ok loaded
    hook_env_tmp false None kernel_ok exe_running
  <> None.
Proof.
  apply (hook_prints_listed_statuses string literal_regcomp literal_regexec
           fs_ok loaded hook_env_tmp false None kernel_ok exe_running).
  discriminate.
Defined.

(** ** From discovery to the remapped code *)

Lemma diagnosed_memory (r : mem_range) (w : world) :
  memory (diagnosed r w) = memory w.
Proof. reflexivity. Qed.

Section EndToEnd.

Variable regex_t : Type.
Variable regcomp : string -> option regex_t.
Variable regexec : regex_t -> string -> bool.
Variable fs : string -> exe_file.

Variables (hdr : dl_phdr_info) (rest : list dl_phdr_info).
Variables (shdrs : list Shdr) (sh : Shdr).
Variables (k : kernel) (w : world).

(** The main executable comes first, its file can be read and has a code
    section. *)
Hypothesis Hmain : dlpi_name hdr = "".
Hypothesis Hstat : stat_ok (fs "/proc/self/exe") = true.
Hypothesis Hopen : open_ok (fs "/proc/self/exe") = true.
Hypothesis Himage : image (fs "/proc/self/exe") = Some shdrs.
Hypothesis Htext : find_text shdrs = Some sh.
Hypothesis Hclose : close_ok (fs "/proc/self/exe") = true.

(** The huge pages inside the code section. *)
Let code : mem_range :=
  AlignRegionToPageBoundary
    {| from := wrap64 (sh_addr sh + dlpi_addr hdr);
       to := wrap64 (wrap64 (sh_addr sh + dlpi_addr hdr) + sh_size sh) |}.

(** There is at least one, it is mapped, and every call of the kernel
    succeeds, the scratch region being taken from free addresses. *)
Hypothesis Hcheck : CheckMemRange code = map_ok.
Hypothesis Hcode : code_mapped (memory w) code.
Hypothesis Hfresh : fresh_scratch k (memory w) code.
Hypothesis Hnmem : k_mmap_nmem k <> MAP_FAILED.
Hypothesis Htmem : k_mmap_tmem k <> MAP_FAILED.
Hypothesis Hmadvise : k_madvise k = true.
Hypothesis Hmprotect : k_mprotect k = true.
Hypothesis Hmunmap : k_munmap_nmem k = true.

(** X26.  End to end: when the main executable is loaded first, its file
    can be read and has a code section, the huge pages inside that section
    pass the check and are mapped, and every call of the kernel succeeds,
    [MapStaticCodeToLargePages] returns [map_ok], and every byte of those
    huge pages is afterwards the byte it was, in a mapping that is
    protected read+execute and advised to use huge pages. *)
Theorem main_executable_is_remapped :
  fst (MapStaticCodeToLargePages regex_t regcomp regexec fs (hdr :: rest)
         k w) = map_ok /\
  forall a, from code <= a < to code ->
    exists c,
      memory w a = Some c /\
      memory
        (snd (MapStaticCodeToLargePages regex_t regcomp regexec fs
                (hdr :: rest) k w)) a
      = Some {| c_prot := Z.lor PROT_READ PROT_EXEC; c_byte := c_byte c;
                c_huge := true |}.
Proof.
  unfold MapStaticCodeToLargePages, FindTextRegion.
  rewrite first_object_decides, (main_exe_selected _ _ _ _ Hmain).
  cbv zeta. rewrite Hstat, Hopen, Himage, Htext, Hclose.
  set (found := {| from := wrap64 (sh_addr sh + dlpi_addr hdr);
                   to := wrap64 (wrap64 (sh_addr sh + dlpi_addr hdr)
                                 + sh_size sh) |}) in *.
  assert (Hrun :
            (if negb (map_ok =? map_ok) then ret map_ok
             else AlignMoveRegionToLargePages k found) w
            = MoveRegionToLargePages k code (diagnosed found w)).
  { cbn [negb Z.eqb map_ok]. rewrite AlignMove_unfold. fold code.
    rewrite Hcheck. reflexivity. }
  assert (Hf : is_ptr (from found)) by apply wrap64_ptr.
  assert (Ht : is_ptr (to found)) by apply wrap64_ptr.
  destruct (aligned_is_ptr found Hf Ht) as [Hcf Hct]. fold code in Hcf, Hct.
  pose proof (aligned_check_validated found Hf Ht Hcheck) as Hval.
  fold code in Hval.
  assert (Hok : fst (MoveRegionToLargePages k code (diagnosed found w))
                = map_ok).
  { rewrite (Move_status k code _ (validated_start code Hct Hval)).
    unfold remap_path_of.
    rewrite (proj2 (Z.eqb_neq _ _) Hnmem), (proj2 (Z.eqb_neq _ _) Htmem).
    rewrite Hmadvise, Hmprotect, Hmunmap. reflexivity. }
  match goal with
  | |- fst ?x = _ /\ _ =>
      replace x with (MoveRegionToLargePages k code (diagnosed found w))
  end.
  2:{ symmetry.
      destruct (munmap_ok (fs "/proc/self/exe")); cbn [negb];
        exact Hrun. }
  split; [exact Hok|].
  intros a Ha. destruct (Hcode a Ha) as (c & Hc & _).
  exists c. split; [exact Hc|].
  apply (Move_ok_cell k code (diagnosed found w) Hcf Hct Hval); auto.
Qed.

End EndToEnd.

Lemma exe_code_mapped :
  code_mapped (memory exe_running) {| from := 0x600000; to := 0xa00000 |}.
Proof.
  intros a Ha. cbn [from to] in Ha.
  cbn [memory exe_running]. unfold exe_memory.
  destruct (in_range_spec 0x401000 0x600000 a); [|lia].
  eexists. repeat split; reflexivity.
Qed.

Lemma exe_scratch_fresh :
  fresh_scratch kernel_ok (memory exe_running)
    {| from := 0x600000; to := 0xa00000 |}.
Proof.
  intros _ a Ha. cbn [from to k_mmap_nmem kernel_ok] in Ha.
  cbn [memory exe_running]. unfold exe_memory.
  destruct (in_range_spec 0x401000 0x600000 a); [lia|reflexivity].
Qed.

Lemma main_executable_is_remapped_witness :
  fst (MapStaticCodeToLargePages string literal_regcomp literal_regexec
         fs_ok loaded kernel_ok exe_running) = map_ok.
Proof.
  eapply proj1.
  apply (main_executable_is_remapped string literal_regcomp literal_regexec
           fs_ok main_exe [libfoo] elf_sections
           {| sh_name := ".text"; sh_addr := 0x1000; sh_size := 0x600000 |}
           kernel_ok exe_running);
    try reflexivity.
  - exact exe_code_mapped.
  - exact exe_scratch_fresh.
  - vm_compute. discriminate.
  - vm_compute. discriminate.
Defined.
